(** * TSMOM: dual-horizon time-series momentum, backtest engine and statistics

    Shallow embedding of [tsmom/strategy.py], [backtest/engine.py] and
    [analysis/stats.py].

    Conventions of the embedding.
    - A DataFrame is the list of its rows, in index order; a column is a list.
    - A [pd.Timestamp] is an integer number of nanoseconds ([Z]).
    - Input prices (the ['close'] column) are finite numbers, modelled as exact
      rationals ([Q]).  Values computed by division live in [fnum]: the
      rationals extended with the two infinities and NaN, with the IEEE rules
      for them.  Rounding and the sign of zero are not modelled.
    - Python exceptions are modelled by the error type [res].  The prices
      that [run] hands to [Trade.close] are Python floats, whose division
      raises ZeroDivisionError on a zero divisor; the columns of a DataFrame
      divide as arrays do, giving an infinity or NaN. *)

From Stdlib Require Import ZArith QArith List Bool Lia Lqa.
From Stdlib Require Import Sorting.Sorted.
Import ListNotations.

Open Scope Z_scope.

(** ** Numbers *)

Inductive fnum : Type :=
| Fin (q : Q)
| PInf
| NInf
| NaN.

Definition fneg (a : fnum) : fnum :=
  match a with
  | Fin q => Fin (- q)%Q
  | PInf => NInf
  | NInf => PInf
  | NaN => NaN
  end.

Definition fadd (a b : fnum) : fnum :=
  match a, b with
  | NaN, _ | _, NaN => NaN
  | Fin x, Fin y => Fin (x + y)%Q
  | PInf, NInf | NInf, PInf => NaN
  | PInf, _ | _, PInf => PInf
  | NInf, _ | _, NInf => NInf
  end.

Definition fsub (a b : fnum) : fnum := fadd a (fneg b).

(** The infinity whose sign is the sign of [q]; NaN for zero. *)
Definition inf_of_sign (q : Q) : fnum :=
  match Qcompare q 0 with
  | Gt => PInf
  | Lt => NInf
  | Eq => NaN
  end.

Definition fmul (a b : fnum) : fnum :=
  match a, b with
  | NaN, _ | _, NaN => NaN
  | Fin x, Fin y => Fin (x * y)%Q
  | Fin x, PInf | PInf, Fin x => inf_of_sign x
  | Fin x, NInf | NInf, Fin x => inf_of_sign (- x)%Q
  | PInf, PInf | NInf, NInf => PInf
  | PInf, NInf | NInf, PInf => NInf
  end.

Definition fdiv (a b : fnum) : fnum :=
  match a, b with
  | NaN, _ | _, NaN => NaN
  | Fin x, Fin y =>
      match Qcompare y 0 with
      | Eq => inf_of_sign x
      | _ => Fin (x / y)%Q
      end
  | Fin _, PInf | Fin _, NInf => Fin 0%Q
  | PInf, Fin y => match Qcompare y 0 with Lt => NInf | _ => PInf end
  | NInf, Fin y => match Qcompare y 0 with Lt => PInf | _ => NInf end
  | _, _ => NaN
  end.

(** Comparisons; every comparison with NaN is false. *)
Definition flt (a b : fnum) : bool :=
  match a, b with
  | NaN, _ | _, NaN => false
  | Fin x, Fin y => match Qcompare x y with Lt => true | _ => false end
  | NInf, NInf | PInf, _ => false
  | NInf, _ => true
  | Fin _, PInf => true
  | Fin _, NInf => false
  end.

Definition fgt (a b : fnum) : bool := flt b a.

(** Equality of values: [Qeq] on the finite ones. *)
Definition feq (a b : fnum) : Prop :=
  match a, b with
  | Fin x, Fin y => (x == y)%Q
  | PInf, PInf | NInf, NInf | NaN, NaN => True
  | _, _ => False
  end.

(** ** Exceptions *)

Inductive error : Type :=
| IndexError
| TypeError
| ZeroDivisionError.

Inductive res (A : Type) : Type :=
| Ok (a : A)
| Err (e : error).
Arguments Ok {A} a.
Arguments Err {A} e.

Definition bind {A B : Type} (m : res A) (k : A -> res B) : res B :=
  match m with
  | Ok a => k a
  | Err e => Err e
  end.

Notation "x <- m ;; k" := (bind m (fun x => k))
  (at level 61, m at next level, right associativity).

Fixpoint mapM {A B : Type} (f : A -> res B) (l : list A) : res (list B) :=
  match l with
  | [] => Ok []
  | a :: l' => b <- f a ;; bs <- mapM f l' ;; Ok (b :: bs)
  end.

(** ** tsmom/strategy.py *)

Inductive SignalState : Type :=
| LONG
| SHORT
| FLAT.

Definition SignalState_eqb (a b : SignalState) : bool :=
  match a, b with
  | LONG, LONG | SHORT, SHORT | FLAT, FLAT => true
  | _, _ => false
  end.

(** class TSMOM: the three attributes set by [__init__]. *)
Record TSMOM : Type := mkTSMOM {
  period_short : Z;
  period_long : Z;
  threshold : Q
}.

(** [TSMOM.__init__]: stores its arguments; there is no raise in its body. *)
Definition TSMOM_init (period_short period_long : Z) (threshold : Q)
  : res TSMOM :=
  Ok (mkTSMOM period_short period_long threshold).

(** One row of the input DataFrame: its index and its ['close']. *)
Record Bar : Type := mkBar {
  bar_time : Z;
  bar_close : Q
}.

(** One row of the DataFrame returned by [generate_signals]. *)
Record SignalRow : Type := mkRow {
  idx : Z;
  close : Q;
  momentum_short : fnum;
  momentum_long : fnum;
  signal_score : fnum;
  signal_value : Z;
  signal_state : SignalState
}.

(** [Series.shift(periods)] at position [i]: the value [periods] places
    earlier, missing when that place is outside the series. *)
Definition shift (xs : list Q) (periods : Z) (i : nat) : option Q :=
  let j := Z.of_nat i - periods in
  if 0 <=? j then nth_error xs (Z.to_nat j) else None.

(** [Series.pct_change(periods)]: [xs / xs.shift(periods) - 1]. *)
Definition pct_at (xs : list Q) (periods : Z) (i : nat) : fnum :=
  match nth_error xs i, shift xs periods i with
  | Some x, Some d => fsub (fdiv (Fin x) (Fin d)) (Fin 1%Q)
  | _, _ => NaN
  end.

Definition pct_change (xs : list Q) (periods : Z) : list fnum :=
  map (pct_at xs periods) (seq 0 (length xs)).

Definition calculate_returns (prices : list Q) (period : Z) : list fnum :=
  pct_change prices period.

Fixpoint zipWith {A B C : Type} (f : A -> B -> C) (l : list A) (m : list B)
  : list C :=
  match l, m with
  | a :: l', b :: m' => f a b :: zipWith f l' m'
  | _, _ => []
  end.

(** [signal_value]: 0, overwritten by 1 where the score is above the
    threshold, then by -1 where it is below the negated threshold. *)
Definition signal_value_of (thr : Q) (score : fnum) : Z :=
  let v := 0 in
  let v := if fgt score (Fin thr) then 1 else v in
  let v := if flt score (Fin (- thr)%Q) then -1 else v in
  v.

(** The mapping [{1: LONG, 0: FLAT, -1: SHORT}]; [signal_value] takes no
    other value. *)
Definition state_of_value (v : Z) : SignalState :=
  match v with
  | 1 => LONG
  | -1 => SHORT
  | _ => FLAT
  end.

Definition w_short : Q := 4 # 10.
Definition w_long : Q := 6 # 10.

(** Putting the columns side by side: one row per index entry. *)
Fixpoint assemble (data : list Bar) (m_short m_long score : list fnum)
  (value : list Z) (state : list SignalState) : list SignalRow :=
  match data, m_short, m_long, score, value, state with
  | b :: data', ms :: m_short', ml :: m_long', sc :: score',
    v :: value', st :: state' =>
      mkRow (bar_time b) (bar_close b) ms ml sc v st
      :: assemble data' m_short' m_long' score' value' state'
  | _, _, _, _, _, _ => []
  end.

Definition generate_signals (self : TSMOM) (data : list Bar)
  : list SignalRow :=
  let closes := map bar_close data in
  let m_short := calculate_returns closes (period_short self) in
  let m_long := calculate_returns closes (period_long self) in
  let score :=
    zipWith fadd (map (fmul (Fin w_short)) m_short)
                 (map (fmul (Fin w_long)) m_long) in
  let value := map (signal_value_of (threshold self)) score in
  let state := map state_of_value value in
  assemble data m_short m_long score value state.

(** ** backtest/engine.py *)

(** Nanoseconds in a day: [Timedelta.days] is the floor of the elapsed time
    in days. *)
Definition ns_per_day : Z := 86400000000000.

(** dataclass Trade; the five fields after [entry_state] default to None. *)
Record Trade : Type := mkTrade {
  entry_time : Z;
  entry_price : Q;
  entry_state : SignalState;
  exit_time : option Z;
  exit_price : option Q;
  pnl : option Q;
  pnl_pct : option fnum;
  bars_held : option Z
}.

(** [Trade(entry_time=..., entry_price=..., entry_state=...)]. *)
Definition new_Trade (t : Z) (p : Q) (s : SignalState) : Trade :=
  mkTrade t p s None None None None None.

(** [Trade._calculate_bars]: a Timestamp is always truthy, so the test is
    whether [exit_time] is set. *)
Definition _calculate_bars (self : Trade) : option Z :=
  match exit_time self with
  | Some x => Some ((x - entry_time self) / ns_per_day)
  | None => None
  end.

(** [a / b] on two Python floats: a zero divisor raises. *)
Definition py_div (a b : Q) : res fnum :=
  if Qeq_bool b 0 then Err ZeroDivisionError else Ok (Fin (a / b)%Q).

(** [Trade.close]: the assignments in the order of the source.  The division
    comes last, so when it raises no trade is returned. *)
Definition Trade_close (self : Trade) (exit_time' : Z) (exit_price' : Q)
  : res Trade :=
  let self1 :=
    mkTrade (entry_time self) (entry_price self) (entry_state self)
            (Some exit_time') (Some exit_price')
            (pnl self) (pnl_pct self) (bars_held self) in
  let bars := _calculate_bars self1 in
  match entry_state self1 with
  | LONG =>
      let pnl1 := (exit_price' - entry_price self1)%Q in
      pct <- py_div (exit_price' - entry_price self1) (entry_price self1) ;;
      Ok (mkTrade (entry_time self1) (entry_price self1) (entry_state self1)
                  (exit_time self1) (exit_price self1)
                  (Some pnl1) (Some pct) bars)
  | _ =>
      let pnl1 := (entry_price self1 - exit_price')%Q in
      pct <- py_div (entry_price self1 - exit_price') (entry_price self1) ;;
      Ok (mkTrade (entry_time self1) (entry_price self1) (entry_state self1)
                  (exit_time self1) (exit_price self1)
                  (Some pnl1) (Some pct) bars)
  end.

Definition is_closed (self : Trade) : bool :=
  match exit_price self with
  | Some _ => true
  | None => false
  end.

(** A [pd.Series] of floats: its index and its values, position by
    position. *)
Record Series : Type := mkSeries {
  s_index : list Z;
  s_values : list Q
}.

(** dataclass BacktestResult. *)
Record BacktestResult : Type := mkResult {
  trades : list Trade;
  equity_curve : option Series
}.

(** Reading [t.pnl] in arithmetic or in a comparison: None is a TypeError. *)
Definition pnl_of (t : Trade) : res Q :=
  match pnl t with
  | Some p => Ok p
  | None => Err TypeError
  end.

Definition pnl_pct_of (t : Trade) : res fnum :=
  match pnl_pct t with
  | Some p => Ok p
  | None => Err TypeError
  end.

Definition closed_of (self : BacktestResult) : list Trade :=
  filter is_closed (trades self).

Definition Qltb (a b : Q) : bool :=
  match Qcompare a b with
  | Lt => true
  | _ => false
  end.

Definition total_trades (self : BacktestResult) : Z :=
  Z.of_nat (length (closed_of self)).

Definition winning_trades (self : BacktestResult) : res Z :=
  ps <- mapM pnl_of (closed_of self) ;;
  Ok (Z.of_nat (length (filter (fun p => Qltb 0 p) ps))).

Definition losing_trades (self : BacktestResult) : res Z :=
  ps <- mapM pnl_of (closed_of self) ;;
  Ok (Z.of_nat (length (filter (fun p => Qltb p 0) ps))).

Definition win_rate (self : BacktestResult) : res Q :=
  let total := total_trades self in
  if 0 <? total
  then w <- winning_trades self ;; Ok (inject_Z w / inject_Z total)%Q
  else Ok 0%Q.

Definition Qsum (l : list Q) : Q := fold_left Qplus l 0%Q.

Definition fsum (l : list fnum) : fnum := fold_left fadd l (Fin 0%Q).

(** [np.mean] of a non-empty list. *)
Definition Qmean (l : list Q) : Q :=
  (Qsum l / inject_Z (Z.of_nat (length l)))%Q.

Definition fmean (l : list fnum) : fnum :=
  fdiv (fsum l) (Fin (inject_Z (Z.of_nat (length l)))).

Definition total_pnl (self : BacktestResult) : res Q :=
  ps <- mapM pnl_of (closed_of self) ;; Ok (Qsum ps).

Definition avg_pnl_pct (self : BacktestResult) : res fnum :=
  match closed_of self with
  | [] => Ok (Fin 0%Q)
  | closed_trades => ps <- mapM pnl_pct_of closed_trades ;; Ok (fmean ps)
  end.

(** class BacktestEngine: the two attributes set by [__init__]. *)
Record BacktestEngine : Type := mkEngine {
  strategy : TSMOM;
  initial_capital : Q
}.

(** [BacktestEngine.__init__]: stores its arguments; there is no raise in its
    body. *)
Definition BacktestEngine_init (strategy : TSMOM) (initial_capital : Q)
  : res BacktestEngine :=
  Ok (mkEngine strategy initial_capital).

(** The variables of the loop of [run]: [result.trades], [current_position]
    and [current_state]. *)
Record RunState : Type := mkRun {
  r_trades : list Trade;
  current_position : option Trade;
  current_state : SignalState
}.

Definition run_init : RunState := mkRun [] None FLAT.

(** One iteration of [for idx, row in signals_df.iterrows()]. *)
Definition run_step (st : RunState) (row : SignalRow) : res RunState :=
  let new_state := signal_state row in
  let current_price := close row in
  if negb (SignalState_eqb new_state (current_state st)) then
    trades1 <-
      match current_position st with
      | Some pos =>
          closed <- Trade_close pos (idx row) current_price ;;
          Ok (r_trades st ++ [closed])
      | None => Ok (r_trades st)
      end ;;
    let position1 :=
      if negb (SignalState_eqb new_state FLAT)
      then Some (new_Trade (idx row) current_price new_state)
      else None in
    Ok (mkRun trades1 position1 new_state)
  else Ok st.

(** The loop, from the loop variables [st] on. *)
Fixpoint run_from (signals_df : list SignalRow) (st : RunState)
  : res RunState :=
  match signals_df with
  | [] => Ok st
  | row :: rest => st1 <- run_step st row ;; run_from rest st1
  end.

Definition run_loop (signals_df : list SignalRow) : res RunState :=
  run_from signals_df run_init.

(** [signals_df.index[-1]] and [signals_df.iloc[-1]]: the last row, an
    IndexError on an empty frame. *)
Definition last_row (signals_df : list SignalRow) : res SignalRow :=
  match rev signals_df with
  | r :: _ => Ok r
  | [] => Err IndexError
  end.

(** [equity.iloc[i] = v]. *)
Fixpoint iloc_set (l : list Q) (i : nat) (v : Q) : res (list Q) :=
  match l, i with
  | [], _ => Err IndexError
  | _ :: l', O => Ok (v :: l')
  | a :: l', S i' => l'' <- iloc_set l' i' v ;; Ok (a :: l'')
  end.

(** The test of the inner loop of [_calculate_equity_curve]. *)
Definition is_active (t : Z) (trade : Trade) : bool :=
  (entry_time trade <=? t) &&
  match exit_time trade with
  | None => true
  | Some x => t <=? x
  end.

(** The inner loop: the first trade of the list that passes the test. *)
Definition find_active (trades : list Trade) (t : Z) : option Trade :=
  find (is_active t) trades.

Definition unrealized (trade : Trade) (current_price : Q) : Q :=
  match entry_state trade with
  | LONG => (current_price - entry_price trade)%Q
  | _ => (entry_price trade - current_price)%Q
  end.

Definition exits_at (trade : Trade) (t : Z) : bool :=
  match exit_time trade with
  | Some x => x =? t
  | None => false
  end.

(** One iteration of the outer loop, on the pair [(equity, cumulative_pnl)]. *)
Definition equity_step (self : BacktestEngine) (trades : list Trade)
  (st : list Q * Q) (i : nat) (row : SignalRow) : res (list Q * Q) :=
  let '(equity, cumulative_pnl) := st in
  let current_price := close row in
  let active_trade := find_active trades (idx row) in
  equity1 <-
    match active_trade with
    | Some tr =>
        iloc_set equity i
          (initial_capital self + cumulative_pnl + unrealized tr current_price)%Q
    | None => iloc_set equity i (initial_capital self + cumulative_pnl)%Q
    end ;;
  cumulative_pnl1 <-
    match active_trade with
    | Some tr =>
        if exits_at tr (idx row)
        then p <- pnl_of tr ;; Ok (cumulative_pnl + p)%Q
        else Ok cumulative_pnl
    | None => Ok cumulative_pnl
    end ;;
  Ok (equity1, cumulative_pnl1).

Fixpoint equity_loop (self : BacktestEngine) (trades : list Trade)
  (rows : list SignalRow) (i : nat) (st : list Q * Q) : res (list Q * Q) :=
  match rows with
  | [] => Ok st
  | row :: rows' =>
      st1 <- equity_step self trades st i row ;;
      equity_loop self trades rows' (S i) st1
  end.

Definition _calculate_equity_curve (self : BacktestEngine)
  (signals_df : list SignalRow) (trades : list Trade) : res Series :=
  let equity := map (fun _ => initial_capital self) signals_df in
  st <- equity_loop self trades signals_df 0%nat (equity, 0%Q) ;;
  Ok (mkSeries (map idx signals_df) (fst st)).

(** The first part of [run]: the loop over the signals and the closing of a
    position that is still open after it. *)
Definition run_trades (signals_df : list SignalRow) : res (list Trade) :=
  st <- run_loop signals_df ;;
  match current_position st with
  | Some pos =>
      r <- last_row signals_df ;;
      closed <- Trade_close pos (idx r) (close r) ;;
      Ok (r_trades st ++ [closed])
  | None => Ok (r_trades st)
  end.

Definition run (self : BacktestEngine) (data : list Bar)
  : res BacktestResult :=
  let signals_df := generate_signals (strategy self) data in
  trades1 <- run_trades signals_df ;;
  equity <- _calculate_equity_curve self signals_df trades1 ;;
  Ok (mkResult trades1 (Some equity)).

(** ** analysis/stats.py *)

(** The dictionary returned by [get_summary_stats]; the two keys that only
    one of its branches sets are optional. *)
Record SummaryStats : Type := mkStats {
  st_total_trades : Z;
  st_winning_trades : Z;
  st_losing_trades : Z;
  st_win_rate : Q;
  st_total_pnl : Q;
  st_avg_pnl : Q;
  st_avg_pnl_pct : fnum;
  st_largest_win : Q;
  st_largest_loss : Q;
  st_avg_bars_held : Q;
  st_max_bars_held : option Z;
  st_min_bars_held : option Z
}.

(** [max] and [min] of a non-empty list: the first extremal element. *)
Definition Qmax_list (x : Q) (l : list Q) : Q :=
  fold_left (fun m y => if Qltb m y then y else m) l x.

Definition Qmin_list (x : Q) (l : list Q) : Q :=
  fold_left (fun m y => if Qltb y m then y else m) l x.

Definition Zmax_list (x : Z) (l : list Z) : Z := fold_left Z.max l x.
Definition Zmin_list (x : Z) (l : list Z) : Z := fold_left Z.min l x.

(** [[t.bars_held for t in closed_trades if t.bars_held]]: the filter is the
    truth value of [bars_held], false for None and for 0. *)
Fixpoint bars_held_list (closed_trades : list Trade) : list Z :=
  match closed_trades with
  | [] => []
  | t :: rest =>
      match bars_held t with
      | Some b => if b =? 0 then bars_held_list rest
                  else b :: bars_held_list rest
      | None => bars_held_list rest
      end
  end.

Definition get_summary_stats (result : BacktestResult) : res SummaryStats :=
  match closed_of result with
  | [] =>
      Ok (mkStats 0 0 0 0%Q 0%Q 0%Q (Fin 0%Q) 0%Q 0%Q 0%Q None None)
  | t0 :: rest =>
      let closed_trades := t0 :: rest in
      pnls <- mapM pnl_of closed_trades ;;
      pnls_pct <- mapM pnl_pct_of closed_trades ;;
      let bars := bars_held_list closed_trades in
      w <- winning_trades result ;;
      l <- losing_trades result ;;
      wr <- win_rate result ;;
      tp <- total_pnl result ;;
      app <- avg_pnl_pct result ;;
      Ok (mkStats
            (total_trades result) w l wr tp
            (Qmean pnls)
            app
            (match pnls with p :: ps => Qmax_list p ps | [] => 0%Q end)
            (match pnls with p :: ps => Qmin_list p ps | [] => 0%Q end)
            (match bars with
             | [] => 0%Q
             | _ => (inject_Z (fold_left Z.add bars 0%Z)
                     / inject_Z (Z.of_nat (length bars)))%Q
             end)
            (Some (match bars with b :: bs => Zmax_list b bs | [] => 0 end))
            (Some (match bars with b :: bs => Zmin_list b bs | [] => 0 end)))
  end.

(** ** tsmom/strategy.py: looking a signal up *)

(** What [row[column]] is after [data.loc[timestamp]]: one value when the
    label occurs once in the index, the column of the matching rows when it
    occurs several times. *)
Inductive cell (A : Type) : Type :=
| Scalar (a : A)
| Column (l : list A).
Arguments Scalar {A} a.
Arguments Column {A} l.

(** dataclass TSMOMSignal. *)
Record TSMOMSignal : Type := mkSignal {
  sig_timestamp : Z;
  sig_state : cell SignalState;
  sig_momentum_short : cell fnum;
  sig_momentum_long : cell fnum;
  sig_score : cell fnum
}.

(** The exception of [get_signal_at], with the timestamp of its message. *)
Inductive lookup_error : Type :=
| ValueError (timestamp : Z).

(** [data.loc[timestamp]]: the rows whose label is [timestamp]. *)
Definition loc (data : list SignalRow) (timestamp : Z) : list SignalRow :=
  filter (fun row => idx row =? timestamp) data.

Definition pick {A : Type} (f : SignalRow -> A) (rows : list SignalRow)
  : cell A :=
  match rows with
  | [row] => Scalar (f row)
  | _ => Column (map f rows)
  end.

Definition get_signal_at (self : TSMOM) (data : list SignalRow)
  (timestamp : Z) : lookup_error + TSMOMSignal :=
  if negb (existsb (fun row => idx row =? timestamp) data)
  then inl (ValueError timestamp)
  else
    let row := loc data timestamp in
    inr (mkSignal timestamp
           (pick signal_state row)
           (pick momentum_short row)
           (pick momentum_long row)
           (pick signal_score row)).

(** ** analysis/stats.py: the distributions *)

(** The dictionary returned by [get_trade_distribution]. *)
Record Distribution : Type := mkDist {
  d_long_trades : Z;
  d_short_trades : Z;
  d_long_win_rate : Q;
  d_short_win_rate : Q;
  d_long_avg_pnl_pct : fnum;
  d_short_avg_pnl_pct : fnum
}.

(** [len([t for t in ts if t.pnl > 0]) / len(ts) if ts else 0]. *)
Definition side_win_rate (ts : list Trade) : res Q :=
  match ts with
  | [] => Ok 0%Q
  | _ =>
      ps <- mapM pnl_of ts ;;
      Ok (inject_Z (Z.of_nat (length (filter (fun p => Qltb 0 p) ps)))
          / inject_Z (Z.of_nat (length ts)))%Q
  end.

(** [np.mean([t.pnl_pct for t in ts]) if ts else 0]. *)
Definition side_avg_pnl_pct (ts : list Trade) : res fnum :=
  match ts with
  | [] => Ok (Fin 0%Q)
  | _ => ps <- mapM pnl_pct_of ts ;; Ok (fmean ps)
  end.

Definition get_trade_distribution (result : BacktestResult)
  : res Distribution :=
  let closed_trades := closed_of result in
  let long_trades :=
    filter (fun t => SignalState_eqb (entry_state t) LONG) closed_trades in
  let short_trades :=
    filter (fun t => SignalState_eqb (entry_state t) SHORT) closed_trades in
  lw <- side_win_rate long_trades ;;
  sw <- side_win_rate short_trades ;;
  la <- side_avg_pnl_pct long_trades ;;
  sa <- side_avg_pnl_pct short_trades ;;
  Ok (mkDist (Z.of_nat (length long_trades))
             (Z.of_nat (length short_trades))
             lw sw la sa).

(** [get_pnl_distribution]: the values of the returned Series. *)
Definition get_pnl_distribution (result : BacktestResult)
  : res (list fnum) :=
  ps <- mapM pnl_pct_of (closed_of result) ;;
  Ok (map (fun p => fmul p (Fin (100 # 1))) ps).

(** * Notions used in the statements *)

(** The row that [generate_signals] computes for the bar at position [i]. *)
Definition signal_row (self : TSMOM) (closes : list Q) (i : nat) (b : Bar)
  : SignalRow :=
  let ms := pct_at closes (period_short self) i in
  let ml := pct_at closes (period_long self) i in
  let sc := fadd (fmul (Fin w_short) ms) (fmul (Fin w_long) ml) in
  let v := signal_value_of (threshold self) sc in
  mkRow (bar_time b) (bar_close b) ms ml sc v (state_of_value v).

(** The bar a signal row was computed from. *)
Definition bar_of_row (r : SignalRow) : Bar := mkBar (idx r) (close r).

(** Timestamps strictly increasing, as the index of a price table is. *)
Definition increasing (ts : list Z) : Prop := StronglySorted Z.lt ts.

(** [m] is the momentum over [period] at position [i] of [closes]:
    undefined before [period] places of history exist, and from then on the
    relative change against the close [period] places earlier. *)
Definition is_momentum (closes : list Q) (period : Z) (i : nat) (m : fnum)
  : Prop :=
  (Z.of_nat i < period -> m = NaN) /\
  (period <= Z.of_nat i ->
   forall x d,
     nth_error closes i = Some x ->
     nth_error closes (Z.to_nat (Z.of_nat i - period)) = Some d ->
     feq m (fdiv (Fin (x - d)%Q) (Fin d))) /\
  (0 <= period <= Z.of_nat i ->
   exists x d,
     nth_error closes i = Some x /\
     nth_error closes (Z.to_nat (Z.of_nat i - period)) = Some d /\
     feq m (fdiv (Fin (x - d)%Q) (Fin d))).

(** The trade was opened on one of [rows]: at its timestamp and close, in
    its state, which is not FLAT. *)
Definition opened_at (rows : list SignalRow) (t : Trade) : Prop :=
  exists row,
    In row rows /\ entry_time t = idx row /\ entry_price t = close row /\
    entry_state t = signal_state row /\ signal_state row <> FLAT.

(** The trade is the result of one [Trade.close] on a fresh trade, at the
    timestamp and close of one of [rows]. *)
Definition closed_at (rows : list SignalRow) (t : Trade) : Prop :=
  exists row,
    In row rows /\
    Trade_close (new_Trade (entry_time t) (entry_price t) (entry_state t))
                (idx row) (close row) = Ok t.

(** What holds of the loop variables of [run] after any number of rows. *)
Definition run_inv (rows : list SignalRow) (st : RunState) : Prop :=
  Forall (fun t => opened_at rows t /\ closed_at rows t) (r_trades st) /\
  match current_position st with
  | Some p =>
      opened_at rows p /\
      p = new_Trade (entry_time p) (entry_price p) (entry_state p) /\
      current_state st = entry_state p
  | None => current_state st = FLAT
  end.

(** [a] is over, after a positive time, no later than [b] starts. *)
Definition precedes (a b : Trade) : Prop :=
  exists x, exit_time a = Some x /\ entry_time a < x /\ x <= entry_time b.

(** The trade has an exit, not before its entry. *)
Definition spans (t : Trade) : Prop :=
  exists x, exit_time t = Some x /\ entry_time t <= x.

(** The loop variables of [run] when every row seen so far has a timestamp
    of at most [hi]. *)
Definition time_inv (hi : Z) (st : RunState) : Prop :=
  StronglySorted precedes (r_trades st) /\
  Forall (fun t => exists x,
            exit_time t = Some x /\ entry_time t < x /\ x <= hi)
         (r_trades st) /\
  match current_position st with
  | Some p => entry_time p <= hi /\ Forall (fun t => precedes t p) (r_trades st)
  | None => True
  end.

(** The trade is open or just closed at timestamp [ts]. *)
Definition active (ts : Z) (t : Trade) : Prop :=
  entry_time t <= ts /\
  match exit_time t with
  | Some x => ts <= x
  | None => True
  end.

(** [tr] is the first trade of [l], in list order, that is active at [ts]. *)
Definition first_active (l : list Trade) (ts : Z) (tr : Trade) : Prop :=
  exists l1 l2,
    l = l1 ++ tr :: l2 /\ active ts tr /\ Forall (fun t => ~ active ts t) l1.

(** The running realized P&L after the bar [row], from its value [cum]
    before it: the P&L of the active trade is added when the trade exits on
    this bar. *)
Definition realized_step (trades : list Trade) (cum : Q) (row : SignalRow)
  : Q :=
  match find_active trades (idx row) with
  | Some tr =>
      if exits_at tr (idx row)
      then match pnl tr with Some p => (cum + p)%Q | None => cum end
      else cum
  | None => cum
  end.

(** The realized P&L accumulated over the bars before position [i]. *)
Definition realized_before (trades : list Trade) (rows : list SignalRow)
  (i : nat) : Q :=
  fold_left (realized_step trades) (firstn i rows) 0%Q.

(** The capital of one bar, given the realized P&L before it. *)
Definition capital_at (ic : Q) (trades : list Trade) (cum : Q)
  (row : SignalRow) : Q :=
  match find_active trades (idx row) with
  | Some tr => (ic + cum + unrealized tr (close row))%Q
  | None => (ic + cum)%Q
  end.

Fixpoint equity_values (ic : Q) (trades : list Trade)
  (rows : list SignalRow) (cum : Q) : list Q :=
  match rows with
  | [] => []
  | row :: rows' =>
      capital_at ic trades cum row
      :: equity_values ic trades rows' (realized_step trades cum row)
  end.


(** [ts] lies in the closed interval from the entry to the exit of [t]. *)
Definition in_interval (ts : Z) (t : Trade) : Prop :=
  exists x, exit_time t = Some x /\ entry_time t <= ts <= x.

Definition disjoint_intervals (a b : Trade) : Prop :=
  forall ts, ~ (in_interval ts a /\ in_interval ts b).

(** No two trades of the list, at different positions, have overlapping
    closed intervals. *)
Definition single_position (T : list Trade) : Prop :=
  forall i j a b,
    i <> j -> nth_error T i = Some a -> nth_error T j = Some b ->
    disjoint_intervals a b.

(** A configuration outside the documented ranges. *)
Definition invalid_configuration (ps pl : Z) (thr : Q) : Prop :=
  ps <= 0 \/ pl <= 0 \/ (thr < 0)%Q.

(** ** Sample inputs *)

(** Daily bars: the [k]-th timestamp is [k] days after the first. *)
Fixpoint daily_from (k : Z) (closes : list Q) : list Bar :=
  match closes with
  | [] => []
  | c :: closes' => mkBar (k * ns_per_day) c :: daily_from (k + 1) closes'
  end.

Definition daily (closes : list Q) : list Bar := daily_from 0 closes.

Definition tsmom_1_1 : TSMOM := mkTSMOM 1 1 0%Q.

Definition engine_1_1 : BacktestEngine := mkEngine tsmom_1_1 (10000 # 1).

(** Up, down, down: LONG on the second bar, reversed to SHORT on the third. *)
Definition reversal_bars : list Bar :=
  daily [100 # 1; 110 # 1; 100 # 1; 90 # 1]%Q.

(** Up, up, down: LONG from the second bar, reversed to SHORT on the last. *)
Definition late_reversal_bars : list Bar :=
  daily [100 # 1; 110 # 1; 120 # 1; 100 # 1]%Q.

(** ** Notions used in the further properties *)

(** The number of trades the state sequence [states] closes when the state
    before it is [prev]: one for each change away from a state that is not
    FLAT, and one more when the sequence ends in a state that is not FLAT. *)
Fixpoint count_closes (prev : SignalState) (states : list SignalState)
  : nat :=
  match states with
  | [] => match prev with FLAT => 0 | _ => 1 end
  | s :: rest =>
      ((if negb (SignalState_eqb s prev) && negb (SignalState_eqb prev FLAT)
        then 1 else 0)
       + count_closes s rest)%nat
  end.

(** The P&L of a trade, zero while it has none. *)
Definition pnl0 (t : Trade) : Q :=
  match pnl t with
  | Some p => p
  | None => 0%Q
  end.

(** The sum of the P&L of the trades of a list. *)
Fixpoint pnl_sum (T : list Trade) : Q :=
  match T with
  | [] => 0%Q
  | t :: T' => (pnl0 t + pnl_sum T')%Q
  end.

(** The trade has its exit at one of the timestamps [ts]. *)
Definition exited_on (ts : list Z) (t : Trade) : bool :=
  match exit_time t with
  | Some x => existsb (Z.eqb x) ts
  | None => false
  end.

(** The trade has its exit strictly before [ts]. *)
Definition exited_before (ts : Z) (t : Trade) : bool :=
  match exit_time t with
  | Some x => x <? ts
  | None => false
  end.

(** A value that is undefined or zero. *)
Definition null (a : fnum) : Prop :=
  a = NaN \/ exists q, a = Fin q /\ (q == 0)%Q.

(** The price table with every close multiplied by [k]. *)
Definition scale_bars (k : Q) (data : list Bar) : list Bar :=
  map (fun b => mkBar (bar_time b) (k * bar_close b)%Q) data.





(** A price table without a zero close. *)
Definition no_zero_close (data : list Bar) : Prop :=
  Forall (fun b => ~ (bar_close b == 0)%Q) data.

(** * Lemmas *)

Section ListFacts.
Context {A : Type} (R : A -> A -> Prop).

Lemma StronglySorted_snoc (l : list A) (a : A) :
  StronglySorted R l -> Forall (fun x => R x a) l ->
  StronglySorted R (l ++ [a]).
Proof.
  induction 1 as [|x l Hs IH Hx]; intros Ha; simpl.
  - constructor; constructor.
  - inversion Ha; subst. constructor; [now apply IH|].
    apply Forall_app; split; [assumption|]. now constructor.
Qed.

Lemma StronglySorted_nth (l : list A) :
  StronglySorted R l ->
  forall i j a b, (i < j)%nat ->
    nth_error l i = Some a -> nth_error l j = Some b -> R a b.
Proof.
  induction 1 as [|x l Hs IH Hx]; intros i j a b Hij Hi Hj.
  - destruct i; discriminate.
  - destruct j as [|j]; [lia|]. simpl in Hj.
    destruct i as [|i]; simpl in Hi.
    + injection Hi as <-. rewrite Forall_forall in Hx.
      apply Hx. eapply nth_error_In; eauto.
    + apply (IH i j); auto. lia.
Qed.

End ListFacts.

Lemma assemble_rows (self : TSMOM) (closes : list Q) :
  forall (data : list Bar) (l : list nat),
    length l = length data ->
    let ms := map (pct_at closes (period_short self)) l in
    let ml := map (pct_at closes (period_long self)) l in
    let sc := zipWith fadd (map (fmul (Fin w_short)) ms)
                           (map (fmul (Fin w_long)) ml) in
    let v := map (signal_value_of (threshold self)) sc in
    assemble data ms ml sc v (map state_of_value v)
    = map (fun ib => signal_row self closes (fst ib) (snd ib))
          (combine l data).
Proof.
  induction data as [|b data IH]; intros [|i l] Hlen; simpl in *;
    try discriminate; try reflexivity.
  f_equal. apply IH. now injection Hlen.
Qed.

Lemma generate_signals_rows (self : TSMOM) (data : list Bar) :
  generate_signals self data
  = map (fun ib => signal_row self (map bar_close data) (fst ib) (snd ib))
        (combine (seq 0 (length data)) data).
Proof.
  unfold generate_signals, calculate_returns, pct_change.
  rewrite length_map.
  apply (assemble_rows self (map bar_close data) data (seq 0 (length data))).
  apply length_seq.
Qed.

Lemma generate_signals_length (self : TSMOM) (data : list Bar) :
  length (generate_signals self data) = length data.
Proof.
  rewrite generate_signals_rows, length_map, length_combine, length_seq.
  apply Nat.min_id.
Qed.

Lemma nth_error_combine_seq {A : Type} (l : list A) :
  forall (k j : nat),
    nth_error (combine (seq k (length l)) l) j
    = option_map (fun c => ((k + j)%nat, c)) (nth_error l j).
Proof.
  induction l as [|c l IH]; intros k j; simpl.
  - now destruct j.
  - destruct j as [|j]; simpl.
    + now rewrite Nat.add_0_r.
    + rewrite IH. now rewrite Nat.add_succ_r.
Qed.

Lemma generate_signals_nth (self : TSMOM) (data : list Bar) (i : nat) :
  nth_error (generate_signals self data) i
  = option_map (signal_row self (map bar_close data) i) (nth_error data i).
Proof.
  rewrite generate_signals_rows, nth_error_map, nth_error_combine_seq.
  now destruct (nth_error data i).
Qed.

Lemma generate_signals_bars (self : TSMOM) (data : list Bar) :
  map bar_of_row (generate_signals self data) = data.
Proof.
  rewrite generate_signals_rows, map_map.
  generalize (map bar_close data) as closes, 0%nat.
  induction data as [|[t c] data IH]; intros closes k; simpl;
    [reflexivity|].
  f_equal. apply IH.
Qed.

Lemma generate_signals_idx (self : TSMOM) (data : list Bar) :
  map idx (generate_signals self data) = map bar_time data.
Proof.
  rewrite <- (generate_signals_bars self data) at 2.
  now rewrite map_map.
Qed.

(** ** Numbers *)

Lemma inf_of_sign_comp (x y : Q) : (x == y)%Q -> inf_of_sign x = inf_of_sign y.
Proof. intros H. unfold inf_of_sign. now rewrite H. Qed.

Lemma pct_formula (x d : Q) :
  feq (fsub (fdiv (Fin x) (Fin d)) (Fin 1%Q)) (fdiv (Fin (x - d)%Q) (Fin d)).
Proof.
  unfold fsub, fdiv.
  destruct (Qcompare d 0) eqn:Hd.
  - apply Qeq_alt in Hd.
    rewrite (inf_of_sign_comp (x - d) x) by (rewrite Hd; ring).
    unfold inf_of_sign. destruct (Qcompare x 0); simpl; exact I.
  - apply Qlt_alt in Hd. simpl. field. intros H0. rewrite H0 in Hd.
    now apply Qlt_irrefl in Hd.
  - apply Qgt_alt in Hd. simpl. field. intros H0. rewrite H0 in Hd.
    now apply Qlt_irrefl in Hd.
Qed.

Lemma flt_fgt_exclusive (thr : Q) (a : fnum) :
  (0 <= thr)%Q -> fgt a (Fin thr) = true -> flt a (Fin (- thr)%Q) = false.
Proof.
  intros Hthr. unfold fgt. destruct a as [q| | |]; simpl; try congruence.
  destruct (Qcompare thr q) eqn:H1; try discriminate. intros _.
  destruct (Qcompare q (- thr)) eqn:H2; try reflexivity.
  apply Qlt_alt in H1, H2. lra.
Qed.

(** ** The signal generator *)

Lemma shift_warmup (xs : list Q) (period : Z) (i : nat) :
  Z.of_nat i < period -> shift xs period i = None.
Proof.
  intros H. unfold shift.
  destruct (Z.leb_spec 0 (Z.of_nat i - period)); [lia|reflexivity].
Qed.

Lemma pct_at_warmup (xs : list Q) (period : Z) (i : nat) :
  Z.of_nat i < period -> pct_at xs period i = NaN.
Proof.
  intros H. unfold pct_at. rewrite shift_warmup by assumption.
  now destruct (nth_error xs i).
Qed.

Lemma pct_at_is_momentum (xs : list Q) (period : Z) (i : nat) :
  (i < length xs)%nat -> is_momentum xs period i (pct_at xs period i).
Proof.
  intros Hi. unfold is_momentum. split; [apply pct_at_warmup|].
  assert (Hgen : period <= Z.of_nat i -> forall x d,
            nth_error xs i = Some x ->
            nth_error xs (Z.to_nat (Z.of_nat i - period)) = Some d ->
            feq (pct_at xs period i) (fdiv (Fin (x - d)%Q) (Fin d))).
  { intros Hp x d Hx Hd. unfold pct_at, shift. rewrite Hx.
    destruct (Z.leb_spec 0 (Z.of_nat i - period)); [|lia].
    rewrite Hd. apply pct_formula. }
  split; [exact Hgen|].
  intros [Hp0 Hp].
  destruct (nth_error xs i) as [x|] eqn:Hx;
    [|apply nth_error_None in Hx; lia].
  destruct (nth_error xs (Z.to_nat (Z.of_nat i - period))) as [d|] eqn:Hd;
    [|apply nth_error_None in Hd; lia].
  exists x, d. repeat split; try reflexivity. now apply Hgen.
Qed.

Lemma state_of_score_nan (thr : Q) :
  state_of_value (signal_value_of thr NaN) = FLAT.
Proof. reflexivity. Qed.

Lemma state_of_score_cases (thr : Q) (sc : fnum) :
  let st := state_of_value (signal_value_of thr sc) in
  (st = SHORT <-> flt sc (Fin (- thr)%Q) = true) /\
  (st = LONG <->
     fgt sc (Fin thr) = true /\ flt sc (Fin (- thr)%Q) = false) /\
  (st = FLAT <->
     fgt sc (Fin thr) = false /\ flt sc (Fin (- thr)%Q) = false).
Proof.
  unfold signal_value_of.
  destruct (flt sc (Fin (- thr)%Q)), (fgt sc (Fin thr)); simpl;
    repeat split; intros; try discriminate; try tauto;
    repeat match goal with H : _ /\ _ |- _ => destruct H end;
    try discriminate.
Qed.

Lemma fadd_nan_l (a : fnum) : fadd NaN a = NaN.
Proof. reflexivity. Qed.

Lemma fadd_nan_r (a : fnum) : fadd a NaN = NaN.
Proof. now destruct a. Qed.

Lemma fmul_nan_r (a : fnum) : fmul a NaN = NaN.
Proof. now destruct a. Qed.

Lemma score_warmup (self : TSMOM) (closes : list Q) (i : nat) (b : Bar) :
  Z.of_nat i < period_short self \/ Z.of_nat i < period_long self ->
  signal_score (signal_row self closes i b) = NaN /\
  signal_state (signal_row self closes i b) = FLAT.
Proof.
  intros H. unfold signal_row. cbv zeta. cbn [signal_score signal_state].
  assert (Hs : fadd (fmul (Fin w_short) (pct_at closes (period_short self) i))
                    (fmul (Fin w_long) (pct_at closes (period_long self) i))
               = NaN).
  { destruct H as [H|H]; rewrite (pct_at_warmup _ _ _ H), fmul_nan_r.
    - apply fadd_nan_l.
    - apply fadd_nan_r. }
  rewrite Hs. split; reflexivity.
Qed.

(** ** The position state machine *)

Lemma SignalState_eqb_eq (a b : SignalState) :
  SignalState_eqb a b = true <-> a = b.
Proof. destruct a, b; simpl; split; congruence. Qed.

Lemma SignalState_eqb_neq (a b : SignalState) :
  SignalState_eqb a b = false <-> a <> b.
Proof. destruct a, b; simpl; split; congruence. Qed.

Lemma py_div_ok (a b : Q) (f : fnum) :
  py_div a b = Ok f -> ~ (b == 0)%Q /\ f = Fin (a / b)%Q.
Proof.
  unfold py_div. destruct (Qeq_bool b 0) eqn:E; [discriminate|].
  intros [= <-]. split; [now apply Qeq_bool_neq|reflexivity].
Qed.

Lemma py_div_nonzero (a b : Q) :
  ~ (b == 0)%Q -> py_div a b = Ok (Fin (a / b)%Q).
Proof.
  intros H. unfold py_div. destruct (Qeq_bool b 0) eqn:E; [|reflexivity].
  apply Qeq_bool_iff in E. contradiction.
Qed.


(** The trade that [Trade.close] leaves when its division does not raise. *)
Lemma Trade_close_value (t : Trade) (x : Z) (p : Q) (c : Trade) :
  Trade_close t x p = Ok c ->
  ~ (entry_price t == 0)%Q /\
  c = mkTrade (entry_time t) (entry_price t) (entry_state t)
              (Some x) (Some p)
              (Some (match entry_state t with
                     | LONG => p - entry_price t
                     | _ => entry_price t - p
                     end)%Q)
              (Some (Fin ((match entry_state t with
                           | LONG => p - entry_price t
                           | _ => entry_price t - p
                           end) / entry_price t)%Q))
              (Some ((x - entry_time t) / ns_per_day)).
Proof.
  unfold Trade_close. cbn [entry_state entry_price entry_time exit_time
                             exit_price _calculate_bars].
  destruct (entry_state t);
    match goal with
    | |- context [py_div ?a ?b] =>
        destruct (py_div a b) as [f|e] eqn:E; cbn [bind]; [|discriminate];
        destruct (py_div_ok _ _ _ E) as (Hnz & ->);
        intros [= <-]; split; [exact Hnz|reflexivity]
    end.
Qed.

Lemma Trade_close_returns (t : Trade) (x : Z) (p : Q) :
  ~ (entry_price t == 0)%Q -> exists c, Trade_close t x p = Ok c.
Proof.
  intros H. unfold Trade_close.
  cbn [entry_state entry_price entry_time exit_time exit_price].
  destruct (entry_state t); rewrite (py_div_nonzero _ _ H); cbn [bind];
    eexists; reflexivity.
Qed.


Lemma Trade_close_entry (t : Trade) (x : Z) (p : Q) (c : Trade) :
  Trade_close t x p = Ok c ->
  entry_time c = entry_time t /\
  entry_price c = entry_price t /\
  entry_state c = entry_state t.
Proof. intros H. apply Trade_close_value in H. now destruct H as (_ & ->). Qed.

Lemma Trade_close_exit (t : Trade) (x : Z) (p : Q) (c : Trade) :
  Trade_close t x p = Ok c ->
  exit_time c = Some x /\
  exit_price c = Some p /\
  bars_held c = Some ((x - entry_time t) / ns_per_day).
Proof. intros H. apply Trade_close_value in H. now destruct H as (_ & ->). Qed.

Lemma Trade_close_pnl (t : Trade) (x : Z) (p : Q) (c : Trade) :
  Trade_close t x p = Ok c ->
  exists v,
    pnl c = Some v /\
    pnl_pct c = Some (Fin (v / entry_price t)) /\
    (entry_state t = LONG -> v = (p - entry_price t)%Q) /\
    (entry_state t <> LONG -> v = (entry_price t - p)%Q).
Proof.
  intros H. apply Trade_close_value in H. destruct H as (_ & ->).
  eexists. split; [reflexivity|]. split; [reflexivity|].
  destruct (entry_state t); split; intros; congruence.
Qed.

(** Closing a fresh copy of the entry fields is closing the trade. *)
Lemma Trade_close_fresh (t : Trade) (x : Z) (p : Q) :
  Trade_close (new_Trade (entry_time t) (entry_price t) (entry_state t)) x p
  = Trade_close t x p.
Proof. reflexivity. Qed.

Lemma opened_at_close (rows : list SignalRow) (t c : Trade) (x : Z) (p : Q) :
  Trade_close t x p = Ok c -> opened_at rows t -> opened_at rows c.
Proof.
  intros Hc (row & Hin & H1 & H2 & H3 & H4).
  destruct (Trade_close_entry t x p c Hc) as (E1 & E2 & E3).
  exists row. rewrite E1, E2, E3. auto.
Qed.

Lemma closed_at_close (rows : list SignalRow) (t c : Trade)
  (row : SignalRow) :
  In row rows -> Trade_close t (idx row) (close row) = Ok c ->
  closed_at rows c.
Proof.
  intros Hin Hc. exists row. split; [assumption|].
  destruct (Trade_close_entry _ _ _ _ Hc) as (E1 & E2 & E3).
  rewrite E1, E2, E3, Trade_close_fresh. exact Hc.
Qed.

(** The two ways [run_step] returns. *)
Lemma run_step_cases (st st' : RunState) (row : SignalRow) :
  run_step st row = Ok st' ->
  (signal_state row = current_state st /\ st' = st) \/
  (signal_state row <> current_state st /\
   current_state st' = signal_state row /\
   current_position st'
   = (if negb (SignalState_eqb (signal_state row) FLAT)
      then Some (new_Trade (idx row) (close row) (signal_state row))
      else None) /\
   match current_position st with
   | Some pos =>
       exists c, Trade_close pos (idx row) (close row) = Ok c /\
                 r_trades st' = r_trades st ++ [c]
   | None => r_trades st' = r_trades st
   end).
Proof.
  unfold run_step.
  destruct (SignalState_eqb (signal_state row) (current_state st)) eqn:Es;
    cbn [negb].
  - apply SignalState_eqb_eq in Es. intros [= <-]. now left.
  - apply SignalState_eqb_neq in Es. intros H. right.
    split; [assumption|].
    destruct (current_position st) as [pos|].
    + destruct (Trade_close pos (idx row) (close row)) as [c|e];
        cbn [bind] in H; [|discriminate].
      injection H as <-. cbn. split; [reflexivity|].
      split; [reflexivity|]. now exists c.
    + cbn [bind] in H. injection H as <-. cbn. auto.
Qed.

Lemma run_step_inv (rows : list SignalRow) (st st' : RunState)
  (row : SignalRow) :
  In row rows -> run_inv rows st -> run_step st row = Ok st' ->
  run_inv rows st'.
Proof.
  intros Hin [Htr Hpos] Hstep.
  destruct (run_step_cases st st' row Hstep)
    as [(_ & ->)|(Hne & Hst & Hp & Ht)]; [now split|].
  split.
  - destruct (current_position st) as [p|]; [|now rewrite Ht].
    destruct Ht as (c & Hc & ->). destruct Hpos as (Hop & _).
    apply Forall_app; split; [assumption|].
    constructor; [|constructor]. split.
    + now apply (opened_at_close rows p c (idx row) (close row)).
    + now apply (closed_at_close rows p c row).
  - rewrite Hp, Hst.
    destruct (SignalState_eqb (signal_state row) FLAT) eqn:Ef; cbn [negb].
    + now apply SignalState_eqb_eq.
    + apply SignalState_eqb_neq in Ef.
      repeat split. exists row. simpl. auto.
Qed.

Lemma run_fold_inv (rows : list SignalRow) :
  forall l st st',
    incl l rows -> run_inv rows st -> run_from l st = Ok st' ->
    run_inv rows st'.
Proof.
  induction l as [|row l IH]; intros st st' Hincl Hinv Hrun; simpl in Hrun.
  - now injection Hrun as <-.
  - destruct (run_step st row) as [st1|e] eqn:Hstep; cbn [bind] in Hrun;
      [|discriminate].
    apply (IH st1 st'); auto.
    + intros r Hr. apply Hincl. now right.
    + apply (run_step_inv rows st st1 row); auto. apply Hincl. now left.
Qed.

Lemma run_init_inv (rows : list SignalRow) : run_inv rows run_init.
Proof. split; simpl; [constructor|reflexivity]. Qed.

Lemma run_loop_inv (rows : list SignalRow) (st : RunState) :
  run_loop rows = Ok st -> run_inv rows st.
Proof.
  apply run_fold_inv; [apply incl_refl|apply run_init_inv].
Qed.

(** Without a zero close among the rows the loop returns. *)
Lemma run_fold_returns (rows : list SignalRow) :
  Forall (fun r => ~ (close r == 0)%Q) rows ->
  forall l st,
    incl l rows -> run_inv rows st -> exists st', run_from l st = Ok st'.
Proof.
  intros Hnz. induction l as [|row l IH]; intros st Hincl Hinv; simpl.
  - now exists st.
  - assert (Hstep : exists st1, run_step st row = Ok st1).
    { unfold run_step.
      destruct (negb (SignalState_eqb (signal_state row) (current_state st)));
        [|now eexists].
      destruct (current_position st) as [p|] eqn:Ep; [|now eexists].
      destruct Hinv as (_ & Hpos). rewrite Ep in Hpos.
      destruct Hpos as ((r0 & Hin0 & _ & Hprice & _) & _).
      rewrite Forall_forall in Hnz.
      destruct (Trade_close_returns p (idx row) (close row)) as (c & ->).
      { rewrite Hprice. now apply Hnz. }
      now eexists. }
    destruct Hstep as (st1 & Hstep). rewrite Hstep. cbn [bind].
    apply IH.
    + intros r Hr. apply Hincl. now right.
    + apply (run_step_inv rows st st1 row); auto. apply Hincl. now left.
Qed.


Lemma time_inv_mono (hi hi' : Z) (st : RunState) :
  hi <= hi' -> time_inv hi st -> time_inv hi' st.
Proof.
  intros Hle (Hs & Hx & Hp). repeat split; [assumption| |].
  - eapply Forall_impl; [|exact Hx].
    intros t (x & E & H1 & H2). exists x. repeat split; auto; lia.
  - destruct (current_position st); [|exact I].
    destruct Hp. split; [lia|assumption].
Qed.

Lemma run_step_time (hi : Z) (st st' : RunState) (row : SignalRow) :
  hi < idx row -> time_inv hi st -> run_step st row = Ok st' ->
  time_inv (idx row) st'.
Proof.
  intros Hlt Hinv Hstep.
  destruct (run_step_cases st st' row Hstep)
    as [(_ & ->)|(Hne & Hst & Hp & Ht)];
    [apply (time_inv_mono hi); [lia|assumption]|].
  destruct Hinv as (Hs & Hx & Hpos).
  assert (HT1 : StronglySorted precedes (r_trades st') /\
                Forall (fun t => exists x, exit_time t = Some x /\
                                   entry_time t < x /\ x <= idx row)
                       (r_trades st')).
  { destruct (current_position st) as [p|].
    - destruct Ht as (c & Hc & ->). destruct Hpos as (Hpe & Hpp).
      destruct (Trade_close_entry p (idx row) (close row) c Hc) as (E1 & _).
      destruct (Trade_close_exit p (idx row) (close row) c Hc) as (X1 & _).
      split.
      + apply StronglySorted_snoc; [assumption|].
        eapply Forall_impl; [|exact Hpp].
        intros t (x & Ex & H1 & H2). exists x. rewrite E1. auto.
      + apply Forall_app; split.
        * eapply Forall_impl; [|exact Hx].
          intros t (x & Ex & H1 & H2). exists x. repeat split; auto; lia.
        * constructor; [|constructor].
          exists (idx row). rewrite E1. repeat split; auto; lia.
    - rewrite Ht. split; [assumption|].
      eapply Forall_impl; [|exact Hx].
      intros t (x & Ex & H1 & H2). exists x. repeat split; auto; lia. }
  destruct HT1 as (HsT & HxT).
  repeat split; try assumption. rewrite Hp.
  destruct (negb (SignalState_eqb (signal_state row) FLAT)); [|exact I].
  simpl. split; [lia|].
  eapply Forall_impl; [|exact HxT].
  intros t (x & Ex & H1 & H2). exists x. simpl. auto.
Qed.

Lemma run_fold_time :
  forall l hi hi' st st',
    time_inv hi st ->
    StronglySorted Z.lt (map idx l) ->
    Forall (fun r => hi < idx r) l ->
    Forall (fun r => idx r <= hi') l ->
    hi <= hi' ->
    run_from l st = Ok st' ->
    time_inv hi' st'.
Proof.
  induction l as [|row l IH]; intros hi hi' st st' Hinv Hs Hlo Hhi Hle Hrun;
    simpl in Hrun.
  - injection Hrun as <-. now apply (time_inv_mono hi).
  - destruct (run_step st row) as [st1|e] eqn:Hstep; cbn [bind] in Hrun;
      [|discriminate].
    simpl in Hs. inversion Hs as [|? ? Hs' Hrow]; subst.
    inversion Hlo; subst. inversion Hhi; subst.
    apply (IH (idx row) hi' st1 st'); auto.
    + now apply (run_step_time hi st st1 row).
    + rewrite Forall_map in Hrow. exact Hrow.
Qed.

Lemma last_row_snoc (pre : list SignalRow) (r : SignalRow) :
  last_row (pre ++ [r]) = Ok r.
Proof. unfold last_row. now rewrite rev_app_distr. Qed.

Lemma last_row_nonempty (l : list SignalRow) :
  l <> [] -> exists pre r, l = pre ++ [r].
Proof.
  intros H. destruct (exists_last H) as (pre & r & E). now exists pre, r.
Qed.

(** What [run_trades] returns: the trades of the loop, and after them the
    open position closed on the last row. *)
Lemma run_trades_ok (signals : list SignalRow) (T : list Trade) :
  run_trades signals = Ok T ->
  exists st,
    run_loop signals = Ok st /\
    Forall (fun t => opened_at signals t /\ closed_at signals t) T /\
    match current_position st with
    | Some pos =>
        exists pre r c,
          signals = pre ++ [r] /\
          Trade_close pos (idx r) (close r) = Ok c /\
          T = r_trades st ++ [c]
    | None => T = r_trades st
    end.
Proof.
  unfold run_trades.
  destruct (run_loop signals) as [st|e] eqn:Hloop; cbn [bind]; [|discriminate].
  destruct (run_loop_inv signals st Hloop) as (Htr & Hpos).
  intros H. exists st. split; [reflexivity|].
  destruct (current_position st) as [p|].
  - destruct Hpos as (Hop & _).
    assert (Hne : signals <> []).
    { destruct Hop as (row & Hin & _). intros E. now rewrite E in Hin. }
    destruct (last_row_nonempty signals Hne) as (pre & r & E).
    assert (Hl : last_row signals = Ok r)
      by (rewrite E; apply last_row_snoc).
    rewrite Hl in H. cbn [bind] in H.
    destruct (Trade_close p (idx r) (close r)) as [c|e] eqn:Hc;
      cbn [bind] in H; [|discriminate].
    injection H as <-.
    assert (Hin : In r signals)
      by (rewrite E; apply in_or_app; right; now left).
    split.
    + apply Forall_app; split; [assumption|].
      constructor; [|constructor]. split.
      * now apply (opened_at_close signals p c (idx r) (close r)).
      * now apply (closed_at_close signals p c r).
    + now exists pre, r, c.
  - injection H as <-. now split.
Qed.

(** Without a zero close [run_trades] returns. *)
Lemma run_trades_returns (signals : list SignalRow) :
  Forall (fun r => ~ (close r == 0)%Q) signals ->
  exists T, run_trades signals = Ok T.
Proof.
  intros Hnz. unfold run_trades.
  destruct (run_fold_returns signals Hnz signals run_init (incl_refl _)
              (run_init_inv signals)) as (st & Hloop).
  unfold run_loop. rewrite Hloop. cbn [bind].
  destruct (run_loop_inv signals st Hloop) as (_ & Hpos).
  destruct (current_position st) as [p|]; [|now eexists].
  destruct Hpos as ((r0 & Hin0 & _ & Hprice & _) & _).
  assert (Hne : signals <> []) by (intros E; now rewrite E in Hin0).
  destruct (last_row_nonempty signals Hne) as (pre & r & E).
  assert (Hl : last_row signals = Ok r) by (rewrite E; apply last_row_snoc).
  rewrite Hl. cbn [bind].
  destruct (Trade_close_returns p (idx r) (close r)) as (c & ->).
  { rewrite Hprice. rewrite Forall_forall in Hnz. now apply Hnz. }
  now eexists.
Qed.


Lemma sorted_all_le_last (pre : list SignalRow) (r : SignalRow) :
  StronglySorted Z.lt (map idx (pre ++ [r])) ->
  Forall (fun x => idx x <= idx r) (pre ++ [r]).
Proof.
  induction pre as [|a pre IH]; simpl; intros Hs.
  - constructor; [lia|constructor].
  - inversion Hs as [|? ? Hs' Ha]; subst. constructor; [|now apply IH].
    rewrite Forall_map in Ha. rewrite Forall_forall in Ha.
    apply Z.lt_le_incl, Ha. apply in_or_app. right. now left.
Qed.

Lemma run_loop_time (signals : list SignalRow) (hi : Z) (st : RunState) :
  StronglySorted Z.lt (map idx signals) ->
  Forall (fun x => idx x <= hi) signals ->
  run_loop signals = Ok st ->
  time_inv hi st.
Proof.
  intros Hs Hhi Hloop. unfold run_loop in Hloop.
  destruct signals as [|r0 rest].
  - simpl in Hloop. injection Hloop as <-. repeat split; constructor.
  - apply (run_fold_time (r0 :: rest) (idx r0 - 1) hi run_init st); auto.
    + repeat split; constructor.
    + simpl in Hs. inversion Hs as [|? ? _ Hr]; subst.
      constructor; [lia|]. rewrite Forall_map in Hr.
      eapply Forall_impl; [|exact Hr]. simpl. intros; lia.
    + inversion Hhi; subst. lia.
Qed.

Lemma run_trades_time (signals : list SignalRow) (T : list Trade) :
  StronglySorted Z.lt (map idx signals) ->
  run_trades signals = Ok T ->
  StronglySorted precedes T /\ Forall spans T.
Proof.
  intros Hs HT.
  destruct (run_trades_ok signals T HT) as (st & Hloop & _ & Hshape).
  assert (Hspan : forall hi l,
             Forall (fun t => exists x, exit_time t = Some x /\
                                entry_time t < x /\ x <= hi) l ->
             Forall spans l).
  { intros hi l H. eapply Forall_impl; [|exact H].
    intros t (x & E & H1 & _). exists x. split; [assumption|lia]. }
  destruct (current_position st) as [p|] eqn:Ep.
  - destruct Hshape as (pre & r & c & E & Hc & ->).
    assert (Hhi : Forall (fun x => idx x <= idx r) signals)
      by (rewrite E; apply sorted_all_le_last; now rewrite <- E).
    destruct (run_loop_time signals (idx r) st Hs Hhi Hloop) as (H1 & H2 & H3).
    rewrite Ep in H3. destruct H3 as (Hpe & Hpp).
    destruct (Trade_close_entry p (idx r) (close r) c Hc) as (E1 & _).
    destruct (Trade_close_exit p (idx r) (close r) c Hc) as (X1 & _).
    split.
    + apply StronglySorted_snoc; [assumption|].
      eapply Forall_impl; [|exact Hpp].
      intros t (x & Ex & Ha & Hb). exists x. rewrite E1. auto.
    + apply Forall_app; split; [now apply (Hspan (idx r))|].
      constructor; [|constructor]. exists (idx r). rewrite E1. auto.
  - subst T.
    destruct signals as [|r0 rest].
    + unfold run_loop in Hloop. simpl in Hloop. injection Hloop as <-.
      split; constructor.
    + destruct (last_row_nonempty (r0 :: rest)) as (pre & r & E);
        [discriminate|].
      assert (Hhi : Forall (fun x => idx x <= idx r) (r0 :: rest))
        by (rewrite E; apply sorted_all_le_last; now rewrite <- E).
      destruct (run_loop_time _ (idx r) st Hs Hhi Hloop) as (H1 & H2 & _).
      split; [assumption|now apply (Hspan (idx r))].
Qed.

(** ** The equity curve *)

Lemma is_active_spec (ts : Z) (t : Trade) :
  is_active ts t = true <-> active ts t.
Proof.
  unfold is_active, active. rewrite andb_true_iff, Z.leb_le.
  destruct (exit_time t); [rewrite Z.leb_le|]; tauto.
Qed.

Lemma find_active_some (l : list Trade) (ts : Z) (tr : Trade) :
  find_active l ts = Some tr <-> first_active l ts tr.
Proof.
  unfold find_active, first_active. split.
  - induction l as [|a l IH]; simpl; [discriminate|].
    destruct (is_active ts a) eqn:Ea.
    + intros [= <-]. exists [], l.
      split; [reflexivity|]. split; [now apply is_active_spec|constructor].
    + intros H. destruct (IH H) as (l1 & l2 & -> & Hact & Hall).
      exists (a :: l1), l2.
      split; [reflexivity|]. split; [assumption|].
      constructor; [|assumption].
      rewrite <- is_active_spec. congruence.
  - intros (l1 & l2 & -> & Hact & Hall).
    induction Hall as [|a l1 Ha Hall IH]; simpl.
    + apply is_active_spec in Hact. now rewrite Hact.
    + rewrite <- is_active_spec in Ha.
      destruct (is_active ts a); [congruence|assumption].
Qed.

Lemma find_active_none (l : list Trade) (ts : Z) :
  find_active l ts = None <-> Forall (fun t => ~ active ts t) l.
Proof.
  unfold find_active. induction l as [|a l IH]; simpl.
  - split; [constructor|reflexivity].
  - destruct (is_active ts a) eqn:Ea.
    + split; [discriminate|]. intros H. inversion H; subst.
      apply is_active_spec in Ea. contradiction.
    + rewrite IH. split.
      * intros H. constructor; [|assumption].
        rewrite <- is_active_spec. congruence.
      * intros H. now inversion H.
Qed.

Lemma iloc_set_app (pre suf : list Q) (a v : Q) :
  iloc_set (pre ++ a :: suf) (length pre) v = Ok (pre ++ v :: suf).
Proof.
  induction pre as [|b pre IH]; simpl; [reflexivity|].
  now rewrite IH.
Qed.

Lemma equity_step_spec (self : BacktestEngine) (trades : list Trade)
  (pre suf : list Q) (a cum : Q) (row : SignalRow) :
  Forall (fun t => exit_time t <> None -> pnl t <> None) trades ->
  equity_step self trades (pre ++ a :: suf, cum) (length pre) row
  = Ok (pre ++ capital_at (initial_capital self) trades cum row :: suf,
        realized_step trades cum row).
Proof.
  intros Hwf. unfold equity_step, capital_at, realized_step.
  destruct (find_active trades (idx row)) as [tr|] eqn:Ef.
  - rewrite iloc_set_app. simpl.
    destruct (exits_at tr (idx row)) eqn:Ex; [|reflexivity].
    assert (Hin : In tr trades) by (eapply find_some; exact Ef).
    rewrite Forall_forall in Hwf. specialize (Hwf tr Hin).
    unfold exits_at in Ex. unfold pnl_of.
    destruct (exit_time tr); [|discriminate].
    destruct (pnl tr); [reflexivity|].
    exfalso. apply Hwf; [discriminate|reflexivity].
  - rewrite iloc_set_app. reflexivity.
Qed.

Lemma equity_loop_spec (self : BacktestEngine) (trades : list Trade) :
  Forall (fun t => exit_time t <> None -> pnl t <> None) trades ->
  forall rows pre suf cum,
    length suf = length rows ->
    equity_loop self trades rows (length pre) (pre ++ suf, cum)
    = Ok (pre ++ equity_values (initial_capital self) trades rows cum,
          fold_left (realized_step trades) rows cum).
Proof.
  intros Hwf. induction rows as [|row rows IH]; intros pre suf cum Hlen.
  - destruct suf; [reflexivity|discriminate].
  - destruct suf as [|a suf]; [discriminate|]. simpl in Hlen.
    cbn [equity_loop equity_values fold_left].
    rewrite equity_step_spec by assumption. cbn [bind].
    replace (pre ++ capital_at (initial_capital self) trades cum row :: suf)
      with ((pre ++ [capital_at (initial_capital self) trades cum row])
              ++ suf)
      by (now rewrite <- app_assoc).
    replace (S (length pre))
      with (length (pre ++ [capital_at (initial_capital self) trades cum row]))
      by (rewrite length_app; simpl; lia).
    rewrite IH by lia. now rewrite <- app_assoc.
Qed.

Lemma calculate_equity_curve_spec (self : BacktestEngine)
  (rows : list SignalRow) (trades : list Trade) :
  Forall (fun t => exit_time t <> None -> pnl t <> None) trades ->
  _calculate_equity_curve self rows trades
  = Ok (mkSeries (map idx rows)
                 (equity_values (initial_capital self) trades rows 0%Q)).
Proof.
  intros Hwf. unfold _calculate_equity_curve.
  pose proof (equity_loop_spec self trades Hwf rows []
                (map (fun _ => initial_capital self) rows) 0%Q
                (length_map _ rows)) as H.
  simpl in H. rewrite H. reflexivity.
Qed.

Lemma equity_values_length (ic : Q) (trades : list Trade) :
  forall rows cum, length (equity_values ic trades rows cum) = length rows.
Proof. induction rows as [|r rows IH]; intros cum; simpl; auto. Qed.

Lemma equity_values_nth (ic : Q) (trades : list Trade) :
  forall rows cum i row,
    nth_error rows i = Some row ->
    nth_error (equity_values ic trades rows cum) i
    = Some (capital_at ic trades
              (fold_left (realized_step trades) (firstn i rows) cum) row).
Proof.
  induction rows as [|r rows IH]; intros cum i row Hi.
  - destruct i; discriminate.
  - destruct i as [|i]; simpl in *.
    + now injection Hi as <-.
    + now apply IH.
Qed.

Lemma realized_before_succ (trades : list Trade) (rows : list SignalRow)
  (i : nat) (row : SignalRow) :
  nth_error rows i = Some row ->
  realized_before trades rows (S i)
  = realized_step trades (realized_before trades rows i) row.
Proof.
  unfold realized_before. generalize 0%Q as cum. revert i.
  induction rows as [|r rows IH]; intros i cum Hi.
  - destruct i; discriminate.
  - destruct i as [|i]; simpl in *.
    + now injection Hi as <-.
    + now apply IH.
Qed.

Lemma closed_at_pnl (rows : list SignalRow) (t : Trade) :
  closed_at rows t -> exists p, pnl t = Some p.
Proof.
  intros (row & _ & E).
  destruct (Trade_close_pnl _ _ _ _ E) as (v & Hv & _). now exists v.
Qed.

(** Once [run_trades] has returned, the equity curve is built without an
    exception. *)
Lemma run_of_trades (self : BacktestEngine) (data : list Bar)
  (T : list Trade) :
  let signals := generate_signals (strategy self) data in
  run_trades signals = Ok T ->
  run self data
  = Ok (mkResult T
          (Some (mkSeries (map bar_time data)
                   (equity_values (initial_capital self) T signals 0%Q)))).
Proof.
  intros signals HT.
  destruct (run_trades_ok signals T HT) as (_ & _ & Hall & _).
  unfold run. fold signals. rewrite HT. cbn [bind].
  rewrite calculate_equity_curve_spec.
  - cbn [bind]. unfold signals. now rewrite generate_signals_idx.
  - eapply Forall_impl; [|exact Hall].
    intros t (_ & Hc) _. destruct (closed_at_pnl _ _ Hc) as (p & ->).
    discriminate.
Qed.

(** What a result of [run] is. *)
Lemma run_ok (self : BacktestEngine) (data : list Bar) (r : BacktestResult) :
  let signals := generate_signals (strategy self) data in
  run self data = Ok r ->
  exists T,
    run_trades signals = Ok T /\
    r = mkResult T
          (Some (mkSeries (map bar_time data)
                   (equity_values (initial_capital self) T signals 0%Q))).
Proof.
  intros signals Hrun.
  destruct (run_trades signals) as [T|e] eqn:HT.
  - exists T. split; [reflexivity|].
    pose proof (run_of_trades self data T HT) as H. fold signals in H.
    congruence.
  - unfold run in Hrun. fold signals in Hrun. rewrite HT in Hrun.
    discriminate.
Qed.

Lemma no_zero_close_rows (self : TSMOM) (data : list Bar) :
  no_zero_close data ->
  Forall (fun r => ~ (close r == 0)%Q) (generate_signals self data).
Proof.
  intros Hnz. unfold no_zero_close in Hnz.
  rewrite <- (generate_signals_bars self data), Forall_map in Hnz.
  exact Hnz.
Qed.

(** Without a zero close [run] returns a result. *)
Lemma run_returns (self : BacktestEngine) (data : list Bar) :
  no_zero_close data -> exists r, run self data = Ok r.
Proof.
  intros Hnz.
  destruct (run_trades_returns (generate_signals (strategy self) data)
              (no_zero_close_rows _ _ Hnz)) as (T & HT).
  eexists. exact (run_of_trades self data T HT).
Qed.

(** * The claims *)

Ltac sample_increasing :=
  unfold increasing; simpl; repeat (constructor; try reflexivity).

Ltac sample_no_zero :=
  unfold no_zero_close; simpl;
  repeat (constructor;
          try (let H := fresh in intro H; vm_compute in H; discriminate H)).



(** C2, as stated, fails: on [reversal_bars] the LONG trade is closed and the
    SHORT trade opened on the same bar, so their closed intervals share that
    timestamp. *)
Lemma reversal_shares_timestamp :
  exists r, run engine_1_1 reversal_bars = Ok r /\ ~ single_position (trades r).
Proof.
  eexists; split; [vm_compute; reflexivity|].
  intros H. simpl in H.
  eapply (H 0%nat 1%nat _ _ ltac:(discriminate) eq_refl eq_refl
            (2 * ns_per_day)).
  split; eexists; (split; [reflexivity|]); simpl; vm_compute;
    split; discriminate.
Qed.

(** C2, amended.  With strictly increasing timestamps, in every result that
    the backtest returns (and it returns one whenever no close is zero),
    every trade ends no earlier than it starts, and of two trades the
    earlier one in the list is over when the later one starts: their closed
    intervals have no timestamp in common except, possibly, the exit of the
    earlier one when it is also the entry of the later one. *)
Theorem trades_meet_only_at_boundary (self : BacktestEngine)
  (data : list Bar) :
  increasing (map bar_time data) ->
  (no_zero_close data -> exists r, run self data = Ok r) /\
  forall r,
    run self data = Ok r ->
    Forall spans (trades r) /\
    forall i j a b,
      (i < j)%nat ->
      nth_error (trades r) i = Some a -> nth_error (trades r) j = Some b ->
      precedes a b /\
      forall ts, in_interval ts a -> in_interval ts b ->
                 exit_time a = Some ts /\ entry_time b = ts.
Proof.
  intros Hinc. split; [apply run_returns|]. intros r Hrun.
  destruct (run_ok self data r Hrun) as (T & HT & ->).
  assert (Hs : StronglySorted Z.lt
                 (map idx (generate_signals (strategy self) data)))
    by (now rewrite generate_signals_idx).
  destruct (run_trades_time _ T Hs HT) as (Hsorted & Hspans).
  cbn [trades]. split; [assumption|].
  intros i j a b Hij Ha Hb.
  pose proof (StronglySorted_nth precedes T Hsorted i j a b Hij Ha Hb) as Hp.
  split; [assumption|].
  intros ts (xa & Ea & Ha1 & Ha2) (xb & Eb & Hb1 & Hb2).
  destruct Hp as (x & Ex & H1 & H2).
  rewrite Ea in Ex. injection Ex as <-.
  assert (ts = xa) by lia. subst ts. split; [assumption|lia].
Qed.

Lemma trades_meet_only_at_boundary_witness :
  increasing (map bar_time reversal_bars) /\
  no_zero_close reversal_bars /\
  exists r,
    run engine_1_1 reversal_bars = Ok r /\
    Forall spans (trades r) /\
    forall i j a b,
      (i < j)%nat ->
      nth_error (trades r) i = Some a -> nth_error (trades r) j = Some b ->
      precedes a b /\
      forall ts, in_interval ts a -> in_interval ts b ->
                 exit_time a = Some ts /\ entry_time b = ts.
Proof.
  assert (H : increasing (map bar_time reversal_bars)) by sample_increasing.
  assert (H2 : no_zero_close reversal_bars) by sample_no_zero.
  split; [exact H|]. split; [exact H2|].
  destruct (trades_meet_only_at_boundary engine_1_1 reversal_bars H)
    as (Hret & Hall).
  destruct (Hret H2) as (r & Hr). exists r. split; [exact Hr|].
  exact (Hall r Hr).
Defined.

(** C3.  A bar whose score is undefined is FLAT; with a threshold that is not
    negative, a bar is LONG exactly when its score is above the threshold,
    SHORT exactly when it is below the negated threshold, and FLAT exactly
    when it is neither.  Bars of the warm-up window are FLAT, and every trade
    of a result that the backtest returns was opened on a bar whose state is
    the trade's and whose score is defined; the backtest returns a result
    whenever no close is zero. *)
Theorem signal_state_classification (self : BacktestEngine)
  (data : list Bar) :
  let signals := generate_signals (strategy self) data in
  let thr := threshold (strategy self) in
  (forall i row,
     nth_error signals i = Some row ->
     (signal_score row = NaN -> signal_state row = FLAT) /\
     (Z.of_nat i < period_short (strategy self) \/
      Z.of_nat i < period_long (strategy self) ->
      signal_score row = NaN /\ signal_state row = FLAT) /\
     ((0 <= thr)%Q ->
      (signal_state row = LONG <-> fgt (signal_score row) (Fin thr) = true) /\
      (signal_state row = SHORT <->
         flt (signal_score row) (Fin (- thr)%Q) = true) /\
      (signal_state row = FLAT <->
         fgt (signal_score row) (Fin thr) = false /\
         flt (signal_score row) (Fin (- thr)%Q) = false))) /\
  (no_zero_close data -> exists r, run self data = Ok r) /\
  forall r,
    run self data = Ok r ->
    forall t, In t (trades r) ->
      exists row,
        In row signals /\ entry_time t = idx row /\
        entry_state t = signal_state row /\
        signal_state row <> FLAT /\ signal_score row <> NaN.
Proof.
  intros signals thr.
  assert (Hrow : forall i row, nth_error signals i = Some row ->
            exists b, row = signal_row (strategy self)
                              (map bar_close data) i b).
  { intros i row Hi. unfold signals in Hi.
    rewrite generate_signals_nth in Hi.
    destruct (nth_error data i) as [b|]; [|discriminate].
    injection Hi as <-. now exists b. }
  assert (Hnan : forall row, In row signals ->
            signal_score row = NaN -> signal_state row = FLAT).
  { intros row Hin. apply In_nth_error in Hin. destruct Hin as (i & Hi).
    destruct (Hrow i row Hi) as (b & ->).
    unfold signal_row. cbv zeta. cbn [signal_score signal_state].
    intros ->. reflexivity. }
  split; [|split; [apply run_returns|]].
  - intros i row Hi. split; [|split].
    + apply Hnan. eapply nth_error_In; eauto.
    + destruct (Hrow i row Hi) as (b & ->). apply score_warmup.
    + intros Hthr. destruct (Hrow i row Hi) as (b & ->).
      unfold signal_row. cbv zeta. cbn [signal_score signal_state].
      set (sc := fadd _ _).
      destruct (state_of_score_cases thr sc) as (Hs & Hl & Hf).
      fold thr. split; [|split; assumption].
      rewrite Hl. split; [tauto|].
      intros Hg. split; [assumption|].
      now apply flt_fgt_exclusive.
  - intros r Hrun.
    destruct (run_ok self data r Hrun) as (T & HT & ->).
    fold signals in HT.
    destruct (run_trades_ok signals T HT) as (_ & _ & Hall & _).
    cbn [trades]. intros t Hin. rewrite Forall_forall in Hall.
    destruct (Hall t Hin) as ((row & Hr & E1 & _ & E3 & Hnf) & _).
    exists row. split; [assumption|]. split; [assumption|].
    split; [assumption|]. split; [assumption|].
    intros Hn. apply Hnf. now apply Hnan.
Qed.

Lemma signal_state_classification_witness :
  (0 <= threshold (strategy engine_1_1))%Q /\
  no_zero_close reversal_bars /\
  signal_state (signal_row tsmom_1_1 (map bar_close reversal_bars) 1
                  (mkBar ns_per_day (110 # 1))) = LONG /\
  signal_state (signal_row tsmom_1_1 (map bar_close reversal_bars) 0
                  (mkBar 0 (100 # 1))) = FLAT /\
  exists r,
    run engine_1_1 reversal_bars = Ok r /\
    forall t, In t (trades r) -> entry_state t <> FLAT.
Proof.
  assert (Hthr : (0 <= threshold (strategy engine_1_1))%Q)
    by (vm_compute; discriminate).
  assert (H2 : no_zero_close reversal_bars) by sample_no_zero.
  split; [exact Hthr|]. split; [exact H2|].
  destruct (signal_state_classification engine_1_1 reversal_bars)
    as (Hrows & Hret & Hall).
  split; [|split].
  - destruct (Hrows 1%nat _ eq_refl) as (_ & _ & Hc).
    destruct (Hc Hthr) as (Hl & _). apply Hl. vm_compute. reflexivity.
  - destruct (Hrows 0%nat _ eq_refl) as (_ & Hw & _).
    apply Hw. left. reflexivity.
  - destruct (Hret H2) as (r & Hr). exists r. split; [exact Hr|].
    intros t Ht. destruct (Hall r Hr t Ht) as (row & _ & _ & Es & Hnf & _).
    rewrite Es. exact Hnf.
Defined.

(** C4.  [generate_signals] returns one row per input bar, in the same
    order, with the bar's timestamp and close.  In the row at position [i],
    [momentum_short] is the momentum over [period_short] and [momentum_long]
    the momentum over [period_long]: undefined when [i] is less than the
    period, and [(close[i] - close[i - period]) / close[i - period]] from
    then on.  The score is [0.4 * momentum_short + 0.6 * momentum_long], and
    is undefined as soon as one of the two is. *)
Theorem momentum_and_score (self : TSMOM) (data : list Bar) :
  let signals := generate_signals self data in
  let closes := map bar_close data in
  length signals = length data /\
  map bar_of_row signals = data /\
  forall i row,
    nth_error signals i = Some row ->
    is_momentum closes (period_short self) i (momentum_short row) /\
    is_momentum closes (period_long self) i (momentum_long row) /\
    signal_score row
    = fadd (fmul (Fin (4 # 10)) (momentum_short row))
           (fmul (Fin (6 # 10)) (momentum_long row)) /\
    (momentum_short row = NaN \/ momentum_long row = NaN ->
     signal_score row = NaN).
Proof.
  intros signals closes.
  split; [apply generate_signals_length|].
  split; [apply generate_signals_bars|].
  intros i row Hi. unfold signals in Hi. rewrite generate_signals_nth in Hi.
  destruct (nth_error data i) as [b|] eqn:Hb; [|discriminate].
  injection Hi as <-.
  assert (Hlen : (i < length closes)%nat).
  { unfold closes. rewrite length_map. apply nth_error_Some. congruence. }
  unfold signal_row. cbv zeta.
  cbn [momentum_short momentum_long signal_score].
  split; [now apply pct_at_is_momentum|].
  split; [now apply pct_at_is_momentum|].
  split; [reflexivity|].
  intros [-> | ->]; rewrite fmul_nan_r;
    [apply fadd_nan_l|apply fadd_nan_r].
Qed.

Lemma momentum_and_score_witness :
  exists row,
    nth_error (generate_signals tsmom_1_1 reversal_bars) 1 = Some row /\
    feq (momentum_short row) (Fin (10 # 100)) /\
    feq (signal_score row) (Fin (10 # 100)).
Proof.
  destruct (momentum_and_score tsmom_1_1 reversal_bars) as (_ & _ & Hrows).
  eexists. split; [reflexivity|].
  destruct (Hrows 1%nat _ eq_refl) as ((_ & _ & Hm) & _ & Hs & _).
  destruct (Hm ltac:(vm_compute; split; discriminate))
    as (x & d & Hx & Hd & Hf).
  injection Hx as <-. injection Hd as <-.
  split; vm_compute; reflexivity.
Defined.

(** C5.  The equity curve of every result that the backtest returns (it
    returns one whenever no close is zero) has the timestamps of the
    signals, in their order, and one capital per timestamp.  At each bar,
    with [realized] the realized P&L accumulated over the bars before it
    (zero before the first): when some trade is active, the capital is
    [initial_capital + realized + unrealized], the unrealized P&L being that
    of the first active trade of the list at the bar's close, and the P&L of
    that trade joins the realized P&L of the following bars when the trade
    exits on this bar; when no trade is active, the capital is
    [initial_capital + realized] and the realized P&L is unchanged. *)
Theorem equity_curve_per_bar (self : BacktestEngine) (data : list Bar) :
  let signals := generate_signals (strategy self) data in
  (no_zero_close data -> exists r, run self data = Ok r) /\
  forall r,
    run self data = Ok r ->
    exists eq,
      equity_curve r = Some eq /\
      s_index eq = map bar_time data /\
      s_index eq = map idx signals /\
      length (s_values eq) = length signals /\
      realized_before (trades r) signals 0 = 0%Q /\
      forall i row,
        nth_error signals i = Some row ->
        let realized := realized_before (trades r) signals i in
        exists capital,
          nth_error (s_values eq) i = Some capital /\
          (forall tr,
             first_active (trades r) (idx row) tr ->
             capital
             = (initial_capital self + realized
                + match entry_state tr with
                  | LONG => close row - entry_price tr
                  | _ => entry_price tr - close row
                  end)%Q /\
             (exit_time tr = Some (idx row) ->
              exists p, pnl tr = Some p /\
                realized_before (trades r) signals (S i)
                = (realized + p)%Q) /\
             (exit_time tr <> Some (idx row) ->
              realized_before (trades r) signals (S i) = realized)) /\
          (Forall (fun t => ~ active (idx row) t) (trades r) ->
           capital = (initial_capital self + realized)%Q /\
           realized_before (trades r) signals (S i) = realized).
Proof.
  intros signals. split; [apply run_returns|]. intros r Hrun.
  destruct (run_ok self data r Hrun) as (T & HT & ->). fold signals in HT.
  destruct (run_trades_ok signals T HT) as (_ & _ & Hall & _).
  eexists. cbn [equity_curve trades s_index s_values].
  split; [reflexivity|]. split; [reflexivity|].
  split; [unfold signals; now rewrite generate_signals_idx|].
  split; [apply equity_values_length|]. split; [reflexivity|].
  intros i row Hi. cbn [s_values].
  eexists. split; [apply equity_values_nth; exact Hi|].
  fold (realized_before T signals i).
  rewrite (realized_before_succ T signals i row Hi).
  unfold capital_at, realized_step, unrealized. split.
  - intros tr Hfirst. apply find_active_some in Hfirst. rewrite Hfirst.
    split; [reflexivity|].
    assert (Hin : In tr T) by (eapply find_some; exact Hfirst).
    rewrite Forall_forall in Hall.
    destruct (Hall tr Hin) as (_ & Hc).
    destruct (closed_at_pnl _ _ Hc) as (p & Hp).
    unfold exits_at. split.
    + intros ->. rewrite Z.eqb_refl, Hp. now exists p.
    + intros Hne. destruct (exit_time tr) as [x|]; [|reflexivity].
      destruct (Z.eqb_spec x (idx row)); [congruence|reflexivity].
  - intros Hnone. apply find_active_none in Hnone. rewrite Hnone.
    now split.
Qed.

Lemma equity_curve_per_bar_witness :
  no_zero_close reversal_bars /\
  exists r eq,
    run engine_1_1 reversal_bars = Ok r /\ equity_curve r = Some eq /\
    nth_error (s_values eq) 0 = Some ((10000 # 1) + 0)%Q /\
    nth_error (s_values eq) 2
    = Some ((10000 # 1) + 0 + ((100 # 1) - (110 # 1)))%Q.
Proof.
  assert (H2 : no_zero_close reversal_bars) by sample_no_zero.
  split; [exact H2|].
  destruct (equity_curve_per_bar engine_1_1 reversal_bars) as (Hret & Hall).
  destruct (Hret H2) as (r & Hrun).
  destruct (Hall r Hrun) as (eq & Heq & _ & _ & _ & _ & Hbars).
  exists r, eq. split; [exact Hrun|]. split; [exact Heq|].
  destruct (run_ok engine_1_1 reversal_bars r Hrun) as (T & HT & Er).
  vm_compute in HT. injection HT as <-.
  rewrite Er in Hbars. cbn [trades] in Hbars. clear Er Hrun Heq.
  split.
  - destruct (Hbars 0%nat _ eq_refl) as (capital & Hcap & _ & Hnone).
    rewrite Hcap. f_equal. apply Hnone.
    repeat constructor; unfold active; simpl; vm_compute;
      intros [H _]; now apply H.
  - destruct (Hbars 2%nat _ eq_refl) as (capital & Hcap & Hsome & _).
    rewrite Hcap. f_equal.
    lazymatch type of Hsome with
    | forall tr, first_active (?a :: ?l) _ tr -> _ =>
        destruct (Hsome a) as (Hvalue & _);
        [exists [], l; split; [reflexivity|]; split; [|constructor];
         unfold active; simpl; vm_compute; split; discriminate|]
    end.
    exact Hvalue.
Defined.



(** C7, as stated, fails: the constructors accept a zero period and a
    negative threshold. *)
Lemma invalid_configuration_accepted :
  invalid_configuration 0 0 (-1 # 1) /\
  (forall err, TSMOM_init 0 0 (-1 # 1) <> Err err) /\
  exists s e,
    TSMOM_init 0 0 (-1 # 1) = Ok s /\
    BacktestEngine_init s (10000 # 1) = Ok e /\
    period_short (strategy e) = 0 /\ period_long (strategy e) = 0 /\
    threshold (strategy e) = (-1 # 1)%Q.
Proof.
  split; [left; lia|]. split; [discriminate|].
  eexists; eexists. repeat split.
Qed.

(** C7, amended.  The constructors reject nothing: whatever the periods, the
    threshold and the capital, also a period that is not positive or a
    negative threshold, they return an object that stores them as given. *)
Theorem constructors_accept_everything (ps pl : Z) (thr ic : Q) :
  exists s e,
    TSMOM_init ps pl thr = Ok s /\
    period_short s = ps /\ period_long s = pl /\ threshold s = thr /\
    BacktestEngine_init s ic = Ok e /\
    strategy e = s /\ initial_capital e = ic.
Proof. eexists; eexists. repeat split. Qed.

(** C8.  On an empty price table [run] returns a result with no trade and an
    empty equity curve. *)
Theorem run_empty_input (self : BacktestEngine) :
  run self [] = Ok (mkResult [] (Some (mkSeries [] []))).
Proof. reflexivity. Qed.

(** C9: the code at an input where two trades are closed, held two days and
    zero days.  The holding statistics are those of the first trade alone:
    the minimum is 2 and the average 2, not 0 and 1. *)
Theorem zero_bars_held_left_out :
  exists r s,
    run engine_1_1 late_reversal_bars = Ok r /\
    map is_closed (trades r) = [true; true] /\
    map bars_held (trades r) = [Some 2; Some 0] /\
    get_summary_stats r = Ok s /\
    st_total_trades s = 2 /\
    st_min_bars_held s = Some 2 /\
    st_max_bars_held s = Some 2 /\
    st_avg_bars_held s = (2 # 1)%Q.
Proof.
  eexists; eexists.
  split; [vm_compute; reflexivity|].
  split; [reflexivity|]. split; [reflexivity|].
  split; [vm_compute; reflexivity|].
  repeat split.
Qed.

(** C10.  With both periods positive and strictly increasing timestamps, in
    every result that the backtest returns on a non-empty input (it returns
    one whenever no close is zero) the first bar is FLAT, no trade is active
    at its timestamp, and the first capital of the equity curve is
    [initial_capital + 0], which equals [initial_capital]. *)
Theorem first_equity_is_initial_capital (self : BacktestEngine) (b : Bar)
  (rest : list Bar) :
  0 < period_short (strategy self) ->
  0 < period_long (strategy self) ->
  increasing (map bar_time (b :: rest)) ->
  (no_zero_close (b :: rest) -> exists r, run self (b :: rest) = Ok r) /\
  forall r,
    run self (b :: rest) = Ok r ->
    exists eq row rows capital capitals,
      equity_curve r = Some eq /\
      generate_signals (strategy self) (b :: rest) = row :: rows /\
      idx row = bar_time b /\
      signal_state row = FLAT /\
      Forall (fun t => ~ active (bar_time b) t) (trades r) /\
      s_values eq = capital :: capitals /\
      capital = (initial_capital self + 0)%Q /\
      (capital == initial_capital self)%Q.
Proof.
  intros Hps Hpl Hinc. split; [apply run_returns|]. intros r Hrun.
  set (data := b :: rest) in *.
  set (signals := generate_signals (strategy self) data).
  destruct (run_ok self data r Hrun) as (T & HT & ->). fold signals in HT.
  destruct (run_trades_ok signals T HT) as (_ & _ & Hall & _).
  assert (Hsig : exists rows,
             signals = signal_row (strategy self) (map bar_close data) 0 b
                       :: rows).
  { unfold signals. rewrite generate_signals_rows. unfold data. simpl.
    eexists. reflexivity. }
  destruct Hsig as (rows & Hsig).
  set (row := signal_row (strategy self) (map bar_close data) 0 b) in *.
  assert (Hflat : signal_state row = FLAT).
  { apply score_warmup. left. simpl. assumption. }
  assert (Hs : StronglySorted Z.lt (map idx signals))
    by (unfold signals; now rewrite generate_signals_idx).
  assert (Hnone : Forall (fun t => ~ active (bar_time b) t) T).
  { eapply Forall_impl; [|exact Hall].
    intros t ((r0 & Hin & E1 & _ & _ & Hnf) & _) (Hact & _).
    rewrite Hsig in Hin, Hs. destruct Hin as [<- | Hin];
      [contradiction|].
    simpl in Hs. inversion Hs as [|? ? _ Hlt]; subst.
    rewrite Forall_map in Hlt. rewrite Forall_forall in Hlt.
    specialize (Hlt r0 Hin). unfold row in Hlt. simpl in Hlt. lia. }
  fold signals.
  eexists. exists row, rows. eexists. eexists.
  split; [reflexivity|].
  split; [exact Hsig|]. split; [reflexivity|]. split; [exact Hflat|].
  split; [exact Hnone|]. cbn [s_values trades].
  assert (Hfind : find_active T (idx row) = None)
    by (apply find_active_none; exact Hnone).
  rewrite Hsig. cbn [equity_values]. unfold capital_at. rewrite Hfind.
  split; [reflexivity|]. split; [reflexivity|]. ring.
Qed.

Lemma first_equity_is_initial_capital_witness :
  0 < period_short (strategy engine_1_1) /\
  0 < period_long (strategy engine_1_1) /\
  increasing (map bar_time reversal_bars) /\
  no_zero_close reversal_bars /\
  exists r eq capital capitals,
    run engine_1_1 reversal_bars = Ok r /\ equity_curve r = Some eq /\
    s_values eq = capital :: capitals /\
    (capital == initial_capital engine_1_1)%Q.
Proof.
  assert (H1 : 0 < period_short (strategy engine_1_1)) by reflexivity.
  assert (H2 : 0 < period_long (strategy engine_1_1)) by reflexivity.
  assert (H3 : increasing (map bar_time reversal_bars))
    by sample_increasing.
  assert (H4 : no_zero_close reversal_bars) by sample_no_zero.
  split; [exact H1|]. split; [exact H2|]. split; [exact H3|].
  split; [exact H4|].
  destruct (first_equity_is_initial_capital engine_1_1
              (mkBar 0 (100 # 1))
              (daily_from 1 [110 # 1; 100 # 1; 90 # 1]%Q) H1 H2 H3)
    as (Hret & Hall).
  destruct (Hret H4) as (r & Hrun).
  destruct (Hall r Hrun)
    as (eq & row & rows & capital & capitals & Heq & _ & _ & _
        & _ & Hv & _ & Hc).
  exists r, eq, capital, capitals. repeat split; assumption.
Defined.

(** * Further properties *)

(** ** The signal generator *)

Lemma pct_at_firstn (xs : list Q) (period : Z) (k i : nat) :
  0 <= period -> (i < k)%nat ->
  pct_at (firstn k xs) period i = pct_at xs period i.
Proof.
  intros Hp Hi. unfold pct_at, shift.
  rewrite nth_error_firstn.
  destruct (Nat.ltb_spec i k); [|lia].
  destruct (Z.leb_spec 0 (Z.of_nat i - period)); [|reflexivity].
  rewrite nth_error_firstn.
  destruct (Nat.ltb_spec (Z.to_nat (Z.of_nat i - period)) k); [|lia].
  reflexivity.
Qed.

(** X1.  No look-ahead: with periods that are not negative, the signals of
    the first [k] bars of a table are the first [k] signals of the whole
    table; later bars do not change them. *)
Theorem generate_signals_prefix (self : TSMOM) (data : list Bar) (k : nat) :
  0 <= period_short self -> 0 <= period_long self ->
  generate_signals self (firstn k data)
  = firstn k (generate_signals self data).
Proof.
  intros Hs Hl. apply nth_error_ext. intros i.
  rewrite generate_signals_nth, !nth_error_firstn, generate_signals_nth.
  destruct (Nat.ltb_spec i k) as [Hi|Hi]; [|reflexivity].
  destruct (nth_error data i) as [b|]; [|reflexivity]. simpl.
  unfold signal_row. rewrite <- firstn_map.
  now rewrite !pct_at_firstn by assumption.
Qed.

Lemma generate_signals_prefix_witness :
  0 <= period_short tsmom_1_1 /\ 0 <= period_long tsmom_1_1 /\
  generate_signals tsmom_1_1 (firstn 2 reversal_bars)
  = firstn 2 (generate_signals tsmom_1_1 reversal_bars).
Proof.
  assert (H1 : 0 <= period_short tsmom_1_1) by discriminate.
  assert (H2 : 0 <= period_long tsmom_1_1) by discriminate.
  split; [exact H1|]. split; [exact H2|].
  exact (generate_signals_prefix tsmom_1_1 reversal_bars 2 H1 H2).
Defined.

Lemma signal_row_of_nth (self : TSMOM) (data : list Bar) (i : nat)
  (row : SignalRow) :
  nth_error (generate_signals self data) i = Some row ->
  exists b, nth_error data i = Some b /\
            row = signal_row self (map bar_close data) i b.
Proof.
  rewrite generate_signals_nth.
  destruct (nth_error data i) as [b|]; [|discriminate].
  intros [= <-]. now exists b.
Qed.

Lemma negative_threshold_masks (thr : Q) (sc : fnum) :
  (thr < 0)%Q -> sc <> NaN ->
  fgt sc (Fin thr) = true \/ flt sc (Fin (- thr)%Q) = true.
Proof.
  intros Hthr Hn. unfold fgt.
  destruct sc as [q| | |]; [|left; reflexivity|right; reflexivity|congruence].
  unfold flt.
  destruct (Qcompare thr q) eqn:H1; auto; right;
    [apply Qeq_alt in H1|apply Qgt_alt in H1];
    (destruct (Qcompare q (- thr)) eqn:H2; [|reflexivity|];
     [apply Qeq_alt in H2|apply Qgt_alt in H2]; lra).
Qed.

(** X2.  Whatever the threshold, a bar is SHORT exactly when its score is
    below the negated threshold, and LONG exactly when its score is above the
    threshold and not below the negated threshold: where both tests hold,
    SHORT wins.  With a negative threshold a bar is FLAT only when its score
    is undefined. *)
Theorem short_mask_wins (self : TSMOM) (data : list Bar) (i : nat)
  (row : SignalRow) :
  nth_error (generate_signals self data) i = Some row ->
  let thr := threshold self in
  (signal_state row = SHORT <->
     flt (signal_score row) (Fin (- thr)%Q) = true) /\
  (signal_state row = LONG <->
     fgt (signal_score row) (Fin thr) = true /\
     flt (signal_score row) (Fin (- thr)%Q) = false) /\
  ((thr < 0)%Q -> (signal_state row = FLAT <-> signal_score row = NaN)).
Proof.
  intros Hi thr. destruct (signal_row_of_nth _ _ _ _ Hi) as (b & _ & ->).
  unfold signal_row. cbv zeta. cbn [signal_score signal_state].
  set (sc := fadd _ _). fold thr.
  destruct (state_of_score_cases thr sc) as (Hs & Hl & Hf).
  split; [assumption|]. split; [assumption|].
  intros Hthr. rewrite Hf. split.
  - intros (Hg & Hlt).
    clearbody sc. clear Hs Hl Hf.
    destruct sc as [q| | |]; try reflexivity; exfalso;
      match type of Hg with
      | fgt ?a _ = _ =>
          destruct (negative_threshold_masks thr a Hthr ltac:(discriminate))
            as [H|H]; congruence
      end.
  - intros ->. now split.
Qed.

Lemma short_mask_wins_witness :
  (threshold (mkTSMOM 1 1 (-1 # 1)) < 0)%Q /\
  exists row,
    nth_error (generate_signals (mkTSMOM 1 1 (-1 # 1)) reversal_bars) 0
    = Some row /\
    (signal_state row = FLAT <-> signal_score row = NaN).
Proof.
  assert (Hthr : (threshold (mkTSMOM 1 1 (-1 # 1)) < 0)%Q) by reflexivity.
  split; [exact Hthr|].
  eexists. split; [reflexivity|].
  exact (proj2 (proj2 (short_mask_wins (mkTSMOM 1 1 (-1 # 1)) reversal_bars
                         0 _ eq_refl)) Hthr).
Defined.

(** ** Looking a signal up *)

(** X3.  [get_signal_at] raises its ValueError exactly when the timestamp is
    not a label of the index. *)
Theorem get_signal_at_missing (self : TSMOM) (data : list SignalRow)
  (timestamp : Z) :
  (get_signal_at self data timestamp = inl (ValueError timestamp) <->
   ~ In timestamp (map idx data)) /\
  (In timestamp (map idx data) ->
   exists s, get_signal_at self data timestamp = inr s /\
             sig_timestamp s = timestamp).
Proof.
  unfold get_signal_at.
  destruct (existsb (fun row => idx row =? timestamp) data) eqn:E; simpl.
  - apply existsb_exists in E. destruct E as (row & Hin & Hrow).
    apply Z.eqb_eq in Hrow.
    assert (Hts : In timestamp (map idx data))
      by (rewrite <- Hrow; now apply in_map).
    split; [split; [discriminate|contradiction]|].
    intros _. eexists. split; reflexivity.
  - assert (Hts : ~ In timestamp (map idx data)).
    { intros Hin. apply in_map_iff in Hin. destruct Hin as (row & Hr & Hin).
      assert (existsb (fun row => idx row =? timestamp) data = true).
      { apply existsb_exists. exists row. split; [assumption|].
        now apply Z.eqb_eq. }
      congruence. }
    split; [split; auto|]. intros Hin. contradiction.
Qed.

Lemma get_signal_at_missing_witness :
  In 0 (map idx (generate_signals tsmom_1_1 reversal_bars)) /\
  exists s,
    get_signal_at tsmom_1_1 (generate_signals tsmom_1_1 reversal_bars) 0
    = inr s /\ sig_timestamp s = 0.
Proof.
  assert (H : In 0 (map idx (generate_signals tsmom_1_1 reversal_bars)))
    by (left; reflexivity).
  split; [exact H|].
  exact (proj2 (get_signal_at_missing tsmom_1_1
                  (generate_signals tsmom_1_1 reversal_bars) 0) H).
Defined.

Lemma loc_unique (l : list SignalRow) :
  StronglySorted Z.lt (map idx l) ->
  forall i row, nth_error l i = Some row -> loc l (idx row) = [row].
Proof.
  unfold loc. induction l as [|a l IH]; simpl; intros Hs i row Hi.
  - destruct i; discriminate.
  - inversion Hs as [|? ? Hs' Ha]; subst.
    rewrite Forall_map in Ha. rewrite Forall_forall in Ha.
    destruct i as [|i]; simpl in Hi.
    + injection Hi as <-. rewrite Z.eqb_refl. f_equal.
      clear IH Hs Hs'. induction l as [|c l IHl]; simpl; [reflexivity|].
      destruct (Z.eqb_spec (idx c) (idx a)) as [E|E].
      * specialize (Ha c (or_introl eq_refl)). lia.
      * apply IHl. intros x Hx. apply Ha. now right.
    + assert (Hlt : idx a < idx row)
        by (apply Ha; eapply nth_error_In; eauto).
      destruct (Z.eqb_spec (idx a) (idx row)); [lia|].
      now apply (IH Hs' i).
Qed.

(** X4.  Generating and looking up: when the timestamps are strictly
    increasing, [get_signal_at] on the generated signals, at the timestamp of
    the bar at position [i], returns the state, the two momenta and the score
    of the signal row at position [i], each as a single value. *)
Theorem get_signal_at_generated (self : TSMOM) (data : list Bar) (i : nat)
  (b : Bar) :
  increasing (map bar_time data) ->
  nth_error data i = Some b ->
  exists row,
    nth_error (generate_signals self data) i = Some row /\
    idx row = bar_time b /\
    get_signal_at self (generate_signals self data) (bar_time b)
    = inr (mkSignal (bar_time b)
             (Scalar (signal_state row))
             (Scalar (momentum_short row))
             (Scalar (momentum_long row))
             (Scalar (signal_score row))).
Proof.
  intros Hinc Hb.
  set (signals := generate_signals self data).
  assert (Hi : nth_error signals i
               = Some (signal_row self (map bar_close data) i b)).
  { unfold signals. rewrite generate_signals_nth, Hb. reflexivity. }
  set (row := signal_row self (map bar_close data) i b) in *.
  exists row. split; [assumption|]. split; [reflexivity|].
  assert (Hs : StronglySorted Z.lt (map idx signals))
    by (unfold signals; now rewrite generate_signals_idx).
  assert (He : existsb (fun r => idx r =? bar_time b) signals = true).
  { apply existsb_exists. exists row. split.
    - eapply nth_error_In; eauto.
    - apply Z.eqb_refl. }
  pose proof (loc_unique signals Hs i row Hi) as Hloc.
  change (idx row) with (bar_time b) in Hloc.
  unfold get_signal_at. fold signals. rewrite He, Hloc. reflexivity.
Qed.

Lemma get_signal_at_generated_witness :
  increasing (map bar_time reversal_bars) /\
  get_signal_at tsmom_1_1 (generate_signals tsmom_1_1 reversal_bars)
    ns_per_day
  = inr (mkSignal ns_per_day (Scalar LONG)
           (Scalar (Fin ((110 # 1) / (100 # 1) + - (1))))
           (Scalar (Fin ((110 # 1) / (100 # 1) + - (1))))
           (Scalar (Fin ((4 # 10) * ((110 # 1) / (100 # 1) + - (1))
                         + (6 # 10) * ((110 # 1) / (100 # 1) + - (1)))))).
Proof.
  assert (H : increasing (map bar_time reversal_bars)).
  { unfold increasing. simpl. repeat (constructor; try reflexivity). }
  split; [exact H|].
  destruct (get_signal_at_generated tsmom_1_1 reversal_bars 1
              (mkBar ns_per_day (110 # 1)) H eq_refl)
    as (row & Hrow & _ & Hget).
  injection Hrow as <-. exact Hget.
Defined.

(** ** Counting the trades *)

Lemma run_fold_count :
  forall l st st',
    (current_position st = None <-> current_state st = FLAT) ->
    run_from l st = Ok st' ->
    (length (r_trades st')
     + match current_position st' with Some _ => 1 | None => 0 end
     = length (r_trades st)
       + count_closes (current_state st) (map signal_state l))%nat.
Proof.
  induction l as [|row l IH]; intros st st' Hpos Hrun;
    cbn [run_from map count_closes] in *.
  - injection Hrun as <-. f_equal.
    destruct (current_position st), (current_state st); try reflexivity;
      destruct Hpos as [H1 H2]; try (now discriminate (H2 eq_refl));
      now discriminate (H1 eq_refl).
  - destruct (run_step st row) as [st1|e] eqn:Hstep; cbn [bind] in Hrun;
      [|discriminate].
    destruct (run_step_cases st st1 row Hstep)
      as [(Es & ->)|(Hne & Hst & Hp & Ht)].
    + rewrite (IH st st' Hpos Hrun), Es.
      rewrite (proj2 (SignalState_eqb_eq _ _) eq_refl). reflexivity.
    + assert (Hpos1 : current_position st1 = None
                      <-> current_state st1 = FLAT).
      { rewrite Hp, Hst.
        destruct (SignalState_eqb (signal_state row) FLAT) eqn:Ef; cbn [negb].
        - apply SignalState_eqb_eq in Ef. tauto.
        - apply SignalState_eqb_neq in Ef. split; [discriminate|tauto]. }
      rewrite (IH st1 st' Hpos1 Hrun), Hst.
      apply SignalState_eqb_neq in Hne. rewrite Hne. cbn [negb andb].
      destruct (current_position st) as [p|].
      * destruct Ht as (c & _ & ->).
        assert (Hnf : SignalState_eqb (current_state st) FLAT = false).
        { apply SignalState_eqb_neq. intros Hf.
          apply Hpos in Hf. discriminate. }
        rewrite Hnf, length_app. simpl. lia.
      * rewrite Ht.
        assert (Hf : SignalState_eqb (current_state st) FLAT = true)
          by (apply SignalState_eqb_eq; now apply Hpos).
        rewrite Hf. simpl. lia.
Qed.

(** X5.  The number of trades of a result that the backtest returns is the
    number of closings its state sequence calls for: one for every change
    away from LONG or SHORT, and one more when the last state is LONG or
    SHORT. *)
Theorem trade_count (self : BacktestEngine) (data : list Bar)
  (r : BacktestResult) :
  run self data = Ok r ->
  length (trades r)
  = count_closes FLAT
      (map signal_state (generate_signals (strategy self) data)).
Proof.
  intros Hrun.
  destruct (run_ok self data r Hrun) as (T & HT & ->).
  set (signals := generate_signals (strategy self) data) in *.
  destruct (run_trades_ok signals T HT) as (st & Hloop & _ & Hshape).
  cbn [trades].
  pose proof (run_fold_count signals run_init st) as Hc.
  cbn [run_init current_position current_state r_trades length] in Hc.
  specialize (Hc ltac:(tauto) Hloop). simpl in Hc. rewrite <- Hc.
  destruct (current_position st).
  - destruct Hshape as (pre & rl & c & _ & _ & ->).
    rewrite length_app. reflexivity.
  - subst T. lia.
Qed.

Lemma trade_count_witness :
  exists r,
    run engine_1_1 reversal_bars = Ok r /\
    length (trades r)
    = count_closes FLAT
        (map signal_state (generate_signals (strategy engine_1_1)
                             reversal_bars)).
Proof.
  eexists.
  refine ((fun H => conj H (trade_count engine_1_1 reversal_bars _ H)) _).
  vm_compute. reflexivity.
Defined.

(** ** Accounting: the realized P&L and the equity curve *)

Lemma sorted_idx_inj (l : list SignalRow) :
  StronglySorted Z.lt (map idx l) ->
  forall a b, In a l -> In b l -> idx a = idx b -> a = b.
Proof.
  induction l as [|c l IH]; simpl; intros Hs a b Ha Hb E; [contradiction|].
  inversion Hs as [|? ? Hs' Hc]; subst.
  rewrite Forall_map in Hc. rewrite Forall_forall in Hc.
  destruct Ha as [<-|Ha], Hb as [<-|Hb]; try reflexivity.
  - specialize (Hc b Hb). lia.
  - specialize (Hc a Ha). lia.
  - now apply IH.
Qed.

Lemma closed_at_facts (rows : list SignalRow) (t : Trade) :
  closed_at rows t ->
  exists row,
    In row rows /\
    exit_time t = Some (idx row) /\
    exit_price t = Some (close row) /\
    pnl t = Some (unrealized t (close row)).
Proof.
  intros (row & Hin & E). exists row. split; [assumption|].
  apply Trade_close_value in E. destruct E as (_ & E).
  cbn [new_Trade entry_time entry_price entry_state] in E.
  split; [rewrite E; reflexivity|]. split; [rewrite E; reflexivity|].
  rewrite E. unfold unrealized. cbn [pnl entry_state entry_price].
  now destruct (entry_state t).
Qed.

Lemma zero_length_pnl (rows : list SignalRow) (t : Trade) :
  StronglySorted Z.lt (map idx rows) ->
  opened_at rows t -> closed_at rows t ->
  exit_time t = Some (entry_time t) -> (pnl0 t == 0)%Q.
Proof.
  intros Hs (r1 & Hin1 & E1 & P1 & _) Hc Hx.
  destruct (closed_at_facts rows t Hc) as (r2 & Hin2 & X2 & _ & Hp).
  rewrite X2 in Hx. injection Hx as Hx. rewrite E1 in Hx.
  assert (r2 = r1) by (now apply (sorted_idx_inj rows Hs)). subst r2.
  unfold pnl0. rewrite Hp. unfold unrealized. rewrite P1.
  destruct (entry_state t); ring.
Qed.

Lemma pnl_sum_zero (f : Trade -> bool) (T : list Trade) :
  Forall (fun b => f b = true -> (pnl0 b == 0)%Q) T ->
  (pnl_sum (filter f T) == 0)%Q.
Proof.
  induction 1 as [|b T Hb _ IH]; simpl; [reflexivity|].
  destruct (f b) eqn:E; [|assumption].
  simpl. rewrite IH, (Hb eq_refl). ring.
Qed.

Lemma pnl_sum_split (p q r : Trade -> bool) (T : list Trade) :
  (forall t, In t T -> r t = p t || q t) ->
  (forall t, In t T -> p t && q t = false) ->
  (pnl_sum (filter r T) == pnl_sum (filter p T) + pnl_sum (filter q T))%Q.
Proof.
  induction T as [|a T IH]; intros Hr Hd; simpl; [ring|].
  assert (IH' : (pnl_sum (filter r T)
                 == pnl_sum (filter p T) + pnl_sum (filter q T))%Q).
  { apply IH; intros t Ht; [apply Hr|apply Hd]; now right. }
  specialize (Hr a (or_introl eq_refl)).
  specialize (Hd a (or_introl eq_refl)).
  rewrite Hr. destruct (p a), (q a); try discriminate; simpl;
    rewrite IH'; ring.
Qed.

Lemma filter_all {A : Type} (f : A -> bool) (l : list A) :
  Forall (fun x => f x = true) l -> filter f l = l.
Proof.
  induction 1 as [|a l Ha _ IH]; simpl; [reflexivity|].
  now rewrite Ha, IH.
Qed.

(** The realized P&L after a bar is the one before it plus the P&L of the
    trades that exit on the bar. *)
Lemma realized_step_exits (row : SignalRow) :
  forall T cum,
    StronglySorted precedes T ->
    Forall spans T ->
    Forall (fun t => exit_time t = Some (entry_time t) -> (pnl0 t == 0)%Q) T ->
    (realized_step T cum row
     == cum + pnl_sum (filter (fun t => exits_at t (idx row)) T))%Q.
Proof.
  induction T as [|a T IH]; intros cum Hs Hsp Hz.
  - unfold realized_step. simpl. ring.
  - inversion Hs as [|? ? Hs' Ha]; subst.
    inversion Hsp as [|? ? (xa & Ea & Hea) Hsp']; subst.
    inversion Hz as [|? ? Hza Hz']; subst.
    assert (Htail : idx row <= xa ->
              Forall (fun b => exits_at b (idx row) = true ->
                               (pnl0 b == 0)%Q) T).
    { intros Hcase. rewrite Forall_forall in *. intros b Hb Hex.
      destruct (Ha b Hb) as (x & Ex & H1 & H2).
      rewrite Ea in Ex. injection Ex as <-.
      destruct (Hsp' b Hb) as (xb & Eb & Heb).
      unfold exits_at in Hex. rewrite Eb in Hex. apply Z.eqb_eq in Hex.
      apply (Hz' b Hb). rewrite Eb. f_equal. lia. }
    assert (Hexa : exits_at a (idx row) = (xa =? idx row))
      by (unfold exits_at; now rewrite Ea).
    unfold realized_step, find_active. cbn [find filter].
    destruct (is_active (idx row) a) eqn:Eact.
    + apply is_active_spec in Eact. destruct Eact as (He & Hx).
      rewrite Ea in Hx.
      assert (Hzero : (pnl_sum (filter (fun t => exits_at t (idx row)) T)
                       == 0)%Q).
      { apply pnl_sum_zero. now apply Htail. }
      rewrite Hexa.
      destruct (Z.eqb_spec xa (idx row)) as [Exa|Exa].
      * cbn [pnl_sum]. rewrite Hzero.
        unfold pnl0. destruct (pnl a); ring.
      * rewrite Hzero. ring.
    + assert (Hnx : exits_at a (idx row) = false).
      { rewrite Hexa.
        destruct (Z.eqb_spec xa (idx row)) as [Exa|Exa]; [|reflexivity].
        exfalso.
        assert (is_active (idx row) a = true).
        { apply is_active_spec. unfold active. rewrite Ea. lia. }
        congruence. }
      rewrite Hnx. now apply IH.
Qed.

Lemma exits_in_rows (signals : list SignalRow) (T : list Trade) :
  Forall (fun t => opened_at signals t /\ closed_at signals t) T ->
  Forall (fun t => exited_on (map idx signals) t = true) T.
Proof.
  intros Hall. eapply Forall_impl; [|exact Hall].
  intros t (_ & Hc).
  destruct (closed_at_facts signals t Hc) as (row & Hin & Ex & _).
  unfold exited_on. rewrite Ex. apply existsb_exists.
  exists (idx row). split; [now apply in_map|apply Z.eqb_refl].
Qed.

Section Accounting.
Variables (signals : list SignalRow) (T : list Trade).
Hypothesis Hsignals : StronglySorted Z.lt (map idx signals).
Hypothesis Hsorted : StronglySorted precedes T.
Hypothesis Hspans : Forall spans T.
Hypothesis Hall :
  Forall (fun t => opened_at signals t /\ closed_at signals t) T.

Lemma zero_length_trades :
  Forall (fun t => exit_time t = Some (entry_time t) -> (pnl0 t == 0)%Q) T.
Proof.
  eapply Forall_impl; [|exact Hall].
  intros t (Ho & Hc). now apply (zero_length_pnl signals).
Qed.

Lemma realized_prefix :
  forall pre suf,
    signals = pre ++ suf ->
    (fold_left (realized_step T) pre 0
     == pnl_sum (filter (exited_on (map idx pre)) T))%Q.
Proof.
  induction pre as [|row pre IH] using rev_ind; intros suf E.
  - simpl. symmetry. apply pnl_sum_zero.
    apply Forall_forall. intros t _. unfold exited_on.
    destruct (exit_time t); discriminate.
  - rewrite fold_left_app. cbn [fold_left].
    rewrite (realized_step_exits row T _ Hsorted Hspans zero_length_trades).
    rewrite (IH ([row] ++ suf)) by (now rewrite app_assoc).
    symmetry. apply pnl_sum_split.
    + intros t _. unfold exited_on, exits_at.
      destruct (exit_time t) as [x|]; [|reflexivity].
      rewrite map_app, existsb_app. simpl. now rewrite orb_false_r.
    + intros t _. unfold exited_on, exits_at.
      destruct (exit_time t) as [x|]; [|reflexivity].
      destruct (Z.eqb_spec x (idx row)) as [Ex|Ex];
        [|apply andb_false_r].
      rewrite andb_true_r. subst x.
      destruct (existsb (Z.eqb (idx row)) (map idx pre)) eqn:Eb;
        [|reflexivity].
      exfalso. apply existsb_exists in Eb. destruct Eb as (y & Hy & Ey).
      apply Z.eqb_eq in Ey. subst y.
      rewrite E, <- app_assoc, map_app in Hsignals. simpl in Hsignals.
      clear - Hsignals Hy.
      induction (map idx pre) as [|z l IHl]; [contradiction|].
      simpl in Hsignals. inversion Hsignals as [|? ? Hs' Hz]; subst.
      destruct Hy as [->|Hy]; [|now apply IHl].
      rewrite Forall_forall in Hz.
      specialize (Hz (idx row) ltac:(apply in_or_app; right; now left)).
      lia.
Qed.

Lemma realized_total :
  (fold_left (realized_step T) signals 0 == pnl_sum T)%Q.
Proof.
  rewrite (realized_prefix signals []) by (now rewrite app_nil_r).
  now rewrite (filter_all _ T (exits_in_rows signals T Hall)).
Qed.

(** On the last bar the capital already holds the P&L of the trade that
    exits there. *)
Lemma capital_last_bar (pre : list SignalRow) (row : SignalRow) (ic cum : Q) :
  signals = pre ++ [row] ->
  (capital_at ic T cum row == ic + realized_step T cum row)%Q.
Proof.
  intros E. unfold capital_at, realized_step.
  destruct (find_active T (idx row)) as [tr|] eqn:Ef; [|ring].
  assert (Hin : In tr T) by (eapply find_some; exact Ef).
  apply find_some in Ef. destruct Ef as (_ & Hact).
  apply is_active_spec in Hact. destruct Hact as (_ & Hx).
  rewrite Forall_forall in Hall. destruct (Hall tr Hin) as (_ & Hc).
  destruct (closed_at_facts signals tr Hc) as (r2 & Hin2 & X2 & _ & Hp).
  rewrite X2 in Hx.
  assert (Hle : idx r2 <= idx row).
  { pose proof (sorted_all_le_last pre row) as Hl. rewrite <- E in Hl.
    specialize (Hl Hsignals). rewrite Forall_forall in Hl.
    now apply Hl. }
  assert (r2 = row).
  { apply (sorted_idx_inj signals Hsignals); auto; [|lia].
    rewrite E. apply in_or_app. right. now left. }
  subst r2. unfold exits_at. rewrite X2, Z.eqb_refl, Hp. ring.
Qed.

End Accounting.

Lemma exited_on_prefix (signals : list SignalRow) (i : nat)
  (row r2 : SignalRow) :
  StronglySorted Z.lt (map idx signals) ->
  nth_error signals i = Some row -> In r2 signals ->
  existsb (Z.eqb (idx r2)) (map idx (firstn i signals))
  = (idx r2 <? idx row).
Proof.
  intros Hs Hi Hin.
  assert (Hnth : forall j r, nth_error signals j = Some r ->
                   nth_error (map idx signals) j = Some (idx r))
    by (intros j r Hj; now rewrite nth_error_map, Hj).
  destruct (Z.ltb_spec (idx r2) (idx row)) as [Hlt|Hge].
  - apply existsb_exists. exists (idx r2). split; [|apply Z.eqb_refl].
    apply in_map. apply In_nth_error in Hin. destruct Hin as (j & Hj).
    assert (Hji : (j < i)%nat).
    { destruct (Nat.lt_trichotomy j i) as [H|[H|H]]; [assumption| |].
      - subst j. rewrite Hi in Hj. injection Hj as ->. lia.
      - pose proof (StronglySorted_nth Z.lt _ Hs i j _ _ H
                      (Hnth _ _ Hi) (Hnth _ _ Hj)). lia. }
    apply (nth_error_In _ j). rewrite nth_error_firstn.
    destruct (Nat.ltb_spec j i); [assumption|lia].
  - destruct (existsb _ _) eqn:Eb; [|reflexivity]. exfalso.
    apply existsb_exists in Eb. destruct Eb as (y & Hy & Ey).
    apply Z.eqb_eq in Ey. subst y. apply in_map_iff in Hy.
    destruct Hy as (r' & Er & Hr'). apply In_nth_error in Hr'.
    destruct Hr' as (j & Hj). rewrite nth_error_firstn in Hj.
    destruct (Nat.ltb_spec j i) as [Hji|]; [|discriminate].
    pose proof (StronglySorted_nth Z.lt _ Hs j i _ _ Hji
                  (Hnth _ _ Hj) (Hnth _ _ Hi)). lia.
Qed.

(** What [run] returns, with the facts about its trades that the accounting
    needs. *)
Lemma run_sorted_result (self : BacktestEngine) (data : list Bar)
  (r : BacktestResult) :
  increasing (map bar_time data) ->
  run self data = Ok r ->
  let signals := generate_signals (strategy self) data in
  exists T,
    r = mkResult T
          (Some (mkSeries (map bar_time data)
                   (equity_values (initial_capital self) T signals 0%Q)))
    /\ StronglySorted Z.lt (map idx signals)
    /\ StronglySorted precedes T /\ Forall spans T
    /\ Forall (fun t => opened_at signals t /\ closed_at signals t) T.
Proof.
  intros Hinc Hrun signals.
  destruct (run_ok self data r Hrun) as (T & HT & Er). fold signals in HT, Er.
  destruct (run_trades_ok signals T HT) as (_ & _ & Hall & _).
  assert (Hs : StronglySorted Z.lt (map idx signals))
    by (unfold signals; now rewrite generate_signals_idx).
  destruct (run_trades_time signals T Hs HT) as (Hsorted & Hspans).
  exists T. auto.
Qed.

(** X6.  Marking to market: with strictly increasing timestamps, in every
    result that the backtest returns the capital of every bar equals the
    initial capital, plus the P&L of all the trades that exited before the
    bar, plus the unrealized P&L of the trade active at the bar, if there is
    one. *)
Theorem equity_marks_to_market (self : BacktestEngine) (data : list Bar)
  (r : BacktestResult) :
  increasing (map bar_time data) ->
  run self data = Ok r ->
  exists eq,
    equity_curve r = Some eq /\
    forall i row,
      nth_error (generate_signals (strategy self) data) i = Some row ->
      exists capital,
        nth_error (s_values eq) i = Some capital /\
        (capital
         == initial_capital self
            + pnl_sum (filter (exited_before (idx row)) (trades r))
            + match find_active (trades r) (idx row) with
              | Some tr => unrealized tr (close row)
              | None => 0
              end)%Q.
Proof.
  intros Hinc Hrun.
  destruct (run_sorted_result self data r Hinc Hrun)
    as (T & -> & Hs & Hsorted & Hspans & Hall).
  set (signals := generate_signals (strategy self) data) in *.
  eexists. split; [reflexivity|].
  cbn [trades s_values]. intros i row Hi.
  eexists. split; [apply equity_values_nth; exact Hi|].
  assert (Hsplit : signals = firstn i signals ++ skipn i signals)
    by (symmetry; apply firstn_skipn).
  pose proof (realized_prefix signals T Hs Hsorted Hspans Hall _ _ Hsplit)
    as Hp.
  assert (Hf : filter (exited_on (map idx (firstn i signals))) T
               = filter (exited_before (idx row)) T).
  { apply filter_ext_in. intros t Ht. rewrite Forall_forall in Hall.
    destruct (Hall t Ht) as (_ & Hc).
    destruct (closed_at_facts signals t Hc) as (r2 & Hin2 & X2 & _).
    unfold exited_on, exited_before. rewrite X2.
    now apply exited_on_prefix. }
  rewrite Hf in Hp. unfold capital_at.
  destruct (find_active T (idx row)); rewrite Hp; ring.
Qed.

Lemma equity_marks_to_market_witness :
  increasing (map bar_time reversal_bars) /\
  exists r eq,
    run engine_1_1 reversal_bars = Ok r /\ equity_curve r = Some eq /\
    exists capital,
      nth_error (s_values eq) 3 = Some capital /\
      (capital
       == initial_capital engine_1_1
          + pnl_sum (filter (exited_before (3 * ns_per_day)) (trades r))
          + match find_active (trades r) (3 * ns_per_day) with
            | Some tr => unrealized tr (90 # 1)
            | None => 0
            end)%Q.
Proof.
  assert (H : increasing (map bar_time reversal_bars)) by sample_increasing.
  split; [exact H|].
  eexists.
  refine ((fun Hrun =>
             match equity_marks_to_market engine_1_1 reversal_bars _ H Hrun
             with
             | ex_intro _ eq (conj Heq Hbars) =>
                 ex_intro _ eq (conj Hrun (conj Heq (Hbars 3%nat _ eq_refl)))
             end) _).
  vm_compute. reflexivity.
Defined.

Lemma Qsum_pnl0 (T : list Trade) :
  forall a, (fold_left Qplus (map pnl0 T) a == a + pnl_sum T)%Q.
Proof.
  induction T as [|t T IH]; intros a; simpl; [ring|].
  rewrite IH. ring.
Qed.

Lemma mapM_pnl_of (rows : list SignalRow) (T : list Trade) :
  Forall (fun t => opened_at rows t /\ closed_at rows t) T ->
  mapM pnl_of T = Ok (map pnl0 T).
Proof.
  induction 1 as [|t T (_ & Hc) _ IH]; simpl; [reflexivity|].
  destruct (closed_at_pnl rows t Hc) as (p & Hp).
  unfold pnl_of at 1, pnl0 at 1. rewrite Hp. simpl. now rewrite IH.
Qed.

Lemma closed_of_run (rows : list SignalRow) (T : list Trade)
  (e : option Series) :
  Forall (fun t => opened_at rows t /\ closed_at rows t) T ->
  closed_of (mkResult T e) = T.
Proof.
  intros Hall. unfold closed_of. cbn [trades]. apply filter_all.
  eapply Forall_impl; [|exact Hall].
  intros t (_ & Hc).
  destruct (closed_at_facts rows t Hc) as (row & _ & _ & Hx & _).
  unfold is_closed. now rewrite Hx.
Qed.

Lemma equity_values_app (ic : Q) (T : list Trade) :
  forall l1 l2 cum,
    equity_values ic T (l1 ++ l2) cum
    = equity_values ic T l1 cum
      ++ equity_values ic T l2 (fold_left (realized_step T) l1 cum).
Proof.
  induction l1 as [|r l1 IH]; intros l2 cum; simpl; [reflexivity|].
  now rewrite IH.
Qed.

(** X7.  With strictly increasing timestamps, in every result that the
    backtest returns on a non-empty table, [total_pnl] returns and the last
    capital of the equity curve is the initial capital plus [total_pnl]. *)
Theorem final_equity_is_capital_plus_pnl (self : BacktestEngine)
  (data : list Bar) (r : BacktestResult) :
  data <> [] ->
  increasing (map bar_time data) ->
  run self data = Ok r ->
  exists eq tp capitals capital,
    equity_curve r = Some eq /\
    total_pnl r = Ok tp /\
    s_values eq = capitals ++ [capital] /\
    (capital == initial_capital self + tp)%Q.
Proof.
  intros Hne Hinc Hrun.
  destruct (run_sorted_result self data r Hinc Hrun)
    as (T & -> & Hs & Hsorted & Hspans & Hall).
  set (signals := generate_signals (strategy self) data) in *.
  assert (Hsne : signals <> []).
  { intros E. apply Hne.
    rewrite <- (generate_signals_bars (strategy self) data).
    fold signals. now rewrite E. }
  destruct (last_row_nonempty signals Hsne) as (pre & row & E).
  eexists; exists (Qsum (map pnl0 T)); eexists; eexists.
  split; [reflexivity|].
  split.
  { unfold total_pnl. rewrite (closed_of_run signals T _ Hall).
    now rewrite (mapM_pnl_of signals T Hall). }
  cbn [s_values]. split.
  { rewrite E at 1. rewrite equity_values_app. cbn [equity_values].
    reflexivity. }
  rewrite (capital_last_bar signals T Hs Hall pre row _ _ E).
  pose proof (realized_total signals T Hs Hsorted Hspans Hall) as Htot.
  rewrite E in Htot at 1. rewrite fold_left_app in Htot. cbn [fold_left] in Htot.
  rewrite Htot. unfold Qsum. rewrite Qsum_pnl0. ring.
Qed.

Lemma final_equity_is_capital_plus_pnl_witness :
  late_reversal_bars <> [] /\
  increasing (map bar_time late_reversal_bars) /\
  exists r eq tp capitals capital,
    run engine_1_1 late_reversal_bars = Ok r /\ equity_curve r = Some eq /\
    total_pnl r = Ok tp /\
    s_values eq = capitals ++ [capital] /\
    (capital == initial_capital engine_1_1 + tp)%Q.
Proof.
  assert (Hne : late_reversal_bars <> []) by discriminate.
  assert (H : increasing (map bar_time late_reversal_bars))
    by sample_increasing.
  split; [exact Hne|]. split; [exact H|].
  eexists.
  refine ((fun Hrun =>
             match final_equity_is_capital_plus_pnl engine_1_1
                     late_reversal_bars _ Hne H Hrun with
             | ex_intro _ eq (ex_intro _ tp (ex_intro _ cs (ex_intro _ c
                 (conj H1 H2)))) =>
                 ex_intro _ eq (ex_intro _ tp (ex_intro _ cs (ex_intro _ c
                   (conj Hrun (conj H1 H2)))))
             end) _).
  vm_compute. reflexivity.
Defined.

(** ** Markets without a signal *)

Lemma run_fold_same :
  forall l st,
    Forall (fun r => signal_state r = current_state st) l ->
    run_from l st = Ok st.
Proof.
  induction l as [|row l IH]; intros st Hall; simpl; [reflexivity|].
  inversion Hall as [|? ? Hrow Hl]; subst.
  assert (Hstep : run_step st row = Ok st).
  { unfold run_step. rewrite Hrow.
    now rewrite (proj2 (SignalState_eqb_eq _ _) eq_refl). }
  rewrite Hstep. cbn [bind]. now apply IH.
Qed.

Lemma run_from_app :
  forall l1 l2 st,
    run_from (l1 ++ l2) st = (st1 <- run_from l1 st ;; run_from l2 st1).
Proof.
  induction l1 as [|row l1 IH]; intros l2 st; simpl; [reflexivity|].
  destruct (run_step st row) as [st1|e]; simpl; [apply IH|reflexivity].
Qed.

Lemma equity_values_no_trade (ic : Q) :
  forall rows cum,
    equity_values ic [] rows cum = map (fun _ => (ic + cum)%Q) rows.
Proof.
  induction rows as [|r rows IH]; intros cum; simpl; [reflexivity|].
  unfold capital_at at 1, realized_step. simpl. now rewrite IH.
Qed.

Lemma run_all_flat (self : BacktestEngine) (data : list Bar) :
  Forall (fun r => signal_state r = FLAT)
         (generate_signals (strategy self) data) ->
  run self data
  = Ok (mkResult []
          (Some (mkSeries (map bar_time data)
                   (map (fun _ => (initial_capital self + 0)%Q) data)))).
Proof.
  intros Hflat.
  set (signals := generate_signals (strategy self) data) in *.
  assert (Hloop : run_loop signals = Ok run_init)
    by (apply run_fold_same; exact Hflat).
  assert (HT : run_trades signals = Ok []).
  { unfold run_trades. rewrite Hloop. reflexivity. }
  rewrite (run_of_trades self data [] HT). do 3 f_equal.
  fold signals.
  rewrite equity_values_no_trade, !map_const. unfold signals.
  now rewrite generate_signals_length.
Qed.

(** X8.  Too little history: when the table has no more bars than one of the
    two periods, the backtest makes no trade and the equity curve stays at
    the initial capital on every bar. *)
Theorem short_history_no_trade (self : BacktestEngine) (data : list Bar) :
  Z.of_nat (length data) <= period_short (strategy self) \/
  Z.of_nat (length data) <= period_long (strategy self) ->
  run self data
  = Ok (mkResult []
          (Some (mkSeries (map bar_time data)
                   (map (fun _ => (initial_capital self + 0)%Q) data)))).
Proof.
  intros Hlen. apply run_all_flat.
  apply Forall_forall. intros row Hin.
  apply In_nth_error in Hin. destruct Hin as (i & Hi).
  destruct (signal_row_of_nth _ _ _ _ Hi) as (b & Hb & ->).
  assert (i < length data)%nat by (apply nth_error_Some; congruence).
  apply score_warmup. lia.
Qed.

Lemma short_history_no_trade_witness :
  (Z.of_nat (length reversal_bars) <= period_short (mkTSMOM 4 2 0) \/
   Z.of_nat (length reversal_bars) <= period_long (mkTSMOM 4 2 0)) /\
  exists eq,
    run (mkEngine (mkTSMOM 4 2 0) (10000 # 1)) reversal_bars
    = Ok (mkResult [] (Some eq)).
Proof.
  assert (H : Z.of_nat (length reversal_bars) <= period_short (mkTSMOM 4 2 0)
              \/ Z.of_nat (length reversal_bars)
                 <= period_long (mkTSMOM 4 2 0))
    by (left; discriminate).
  split; [exact H|].
  eexists.
  exact (short_history_no_trade (mkEngine (mkTSMOM 4 2 0) (10000 # 1))
           reversal_bars H).
Defined.

Lemma pct_flat (x d : Q) :
  (x == d)%Q -> null (fsub (fdiv (Fin x) (Fin d)) (Fin 1%Q)).
Proof.
  intros E. unfold fsub, fdiv.
  destruct (Qcompare d 0) eqn:Hd.
  - apply Qeq_alt in Hd. left.
    assert (Hx : Qcompare x 0 = Eq) by (apply Qeq_alt; lra).
    unfold inf_of_sign. now rewrite Hx.
  - apply Qlt_alt in Hd. right. eexists. split; [reflexivity|].
    rewrite E. field. lra.
  - apply Qgt_alt in Hd. right. eexists. split; [reflexivity|].
    rewrite E. field. lra.
Qed.

Lemma null_fmul (w : Q) (a : fnum) : null a -> null (fmul (Fin w) a).
Proof.
  intros [->|(q & -> & Hq)]; [now left|].
  right. eexists. split; [reflexivity|]. rewrite Hq. ring.
Qed.

Lemma null_fadd (a b : fnum) : null a -> null b -> null (fadd a b).
Proof.
  intros [->|(q & -> & Hq)] Hb; [now left|].
  destruct Hb as [->|(q' & -> & Hq')]; [now left|].
  right. eexists. split; [reflexivity|]. rewrite Hq, Hq'. ring.
Qed.

Lemma null_is_flat (thr : Q) (a : fnum) :
  (0 <= thr)%Q -> null a -> state_of_value (signal_value_of thr a) = FLAT.
Proof.
  intros Hthr [->|(q & -> & Hq)]; [reflexivity|].
  apply (proj2 (proj2 (state_of_score_cases thr (Fin q)))).
  unfold fgt, flt. split.
  - destruct (Qcompare thr q) eqn:H; try reflexivity.
    apply Qlt_alt in H. lra.
  - destruct (Qcompare q (- thr)) eqn:H; try reflexivity.
    apply Qlt_alt in H. lra.
Qed.

Lemma pct_at_flat (closes : list Q) (c : Q) (period : Z) (i : nat) :
  Forall (fun x => (x == c)%Q) closes -> null (pct_at closes period i).
Proof.
  intros Hall. rewrite Forall_forall in Hall. unfold pct_at, shift.
  destruct (nth_error closes i) as [x|] eqn:Hx; [|now left].
  destruct (0 <=? Z.of_nat i - period); [|now left].
  destruct (nth_error closes (Z.to_nat (Z.of_nat i - period))) as [d|] eqn:Hd;
    [|now left].
  apply pct_flat.
  rewrite (Hall x (nth_error_In _ _ Hx)), (Hall d (nth_error_In _ _ Hd)).
  reflexivity.
Qed.

(** X9.  A market that does not move: when every close has the same value
    and the threshold is not negative, every bar is FLAT, the backtest makes
    no trade and the equity curve stays at the initial capital, whatever the
    periods. *)
Theorem flat_market_no_trade (self : BacktestEngine) (data : list Bar)
  (c : Q) :
  (0 <= threshold (strategy self))%Q ->
  Forall (fun b => (bar_close b == c)%Q) data ->
  Forall (fun r => signal_state r = FLAT)
         (generate_signals (strategy self) data) /\
  run self data
  = Ok (mkResult []
          (Some (mkSeries (map bar_time data)
                   (map (fun _ => (initial_capital self + 0)%Q) data)))).
Proof.
  intros Hthr Hc.
  assert (Hflat : Forall (fun r => signal_state r = FLAT)
                         (generate_signals (strategy self) data)).
  { apply Forall_forall. intros row Hin.
    apply In_nth_error in Hin. destruct Hin as (i & Hi).
    destruct (signal_row_of_nth _ _ _ _ Hi) as (b & _ & ->).
    assert (Hcl : Forall (fun x => (x == c)%Q) (map bar_close data))
      by (now rewrite Forall_map).
    unfold signal_row. cbv zeta. cbn [signal_state].
    apply null_is_flat; [assumption|].
    apply null_fadd; apply null_fmul; now apply (pct_at_flat _ c). }
  split; [assumption|]. now apply run_all_flat.
Qed.

Lemma flat_market_no_trade_witness :
  (0 <= threshold (strategy engine_1_1))%Q /\
  Forall (fun b => (bar_close b == 100 # 1)%Q)
         (daily [100 # 1; 100 # 1; 100 # 1]%Q) /\
  exists eq,
    run engine_1_1 (daily [100 # 1; 100 # 1; 100 # 1]%Q)
    = Ok (mkResult [] (Some eq)).
Proof.
  assert (H1 : (0 <= threshold (strategy engine_1_1))%Q)
    by (vm_compute; discriminate).
  assert (H2 : Forall (fun b => (bar_close b == 100 # 1)%Q)
                      (daily [100 # 1; 100 # 1; 100 # 1]%Q))
    by (repeat constructor).
  split; [exact H1|]. split; [exact H2|].
  eexists.
  exact (proj2 (flat_market_no_trade engine_1_1
                  (daily [100 # 1; 100 # 1; 100 # 1]%Q) (100 # 1) H1 H2)).
Defined.

(** ** A rising market *)

Lemma pct_rising (x d : Q) :
  (0 < d)%Q -> (d < x)%Q ->
  exists q, fsub (fdiv (Fin x) (Fin d)) (Fin 1%Q) = Fin q /\ (0 < q)%Q.
Proof.
  intros Hd Hx. unfold fsub, fdiv.
  assert (Hc : Qcompare d 0 = Gt) by (now apply Qgt_alt).
  rewrite Hc. eexists. split; [reflexivity|].
  assert (H1 : (1 < x / d)%Q).
  { apply Qlt_shift_div_l; [assumption|]. now rewrite Qmult_1_l. }
  lra.
Qed.

Lemma pct_at_rising (closes : list Q) (period : Z) (i : nat) :
  0 < period -> period <= Z.of_nat i -> (i < length closes)%nat ->
  Forall (fun x => (0 < x)%Q) closes ->
  StronglySorted Qlt closes ->
  exists q, pct_at closes period i = Fin q /\ (0 < q)%Q.
Proof.
  intros Hp Hi Hlen Hpos Hs. unfold pct_at, shift.
  destruct (nth_error closes i) as [x|] eqn:Hx;
    [|apply nth_error_None in Hx; lia].
  destruct (Z.leb_spec 0 (Z.of_nat i - period)); [|lia].
  destruct (nth_error closes (Z.to_nat (Z.of_nat i - period))) as [d|] eqn:Hd;
    [|apply nth_error_None in Hd; lia].
  apply pct_rising.
  - rewrite Forall_forall in Hpos. apply Hpos. eapply nth_error_In; eauto.
  - apply (StronglySorted_nth Qlt closes Hs
             (Z.to_nat (Z.of_nat i - period)) i); auto. lia.
Qed.

Lemma positive_is_long (thr q : Q) :
  (thr == 0)%Q -> (0 < q)%Q ->
  state_of_value (signal_value_of thr (Fin q)) = LONG.
Proof.
  intros Hthr Hq.
  apply (proj1 (proj2 (state_of_score_cases thr (Fin q)))).
  unfold fgt, flt. split.
  - destruct (Qcompare thr q) eqn:H; [|reflexivity|].
    + apply Qeq_alt in H. lra.
    + apply Qgt_alt in H. lra.
  - destruct (Qcompare q (- thr)) eqn:H; try reflexivity.
    apply Qlt_alt in H. lra.
Qed.

(** One position over the whole table: FLAT rows, then rows of one state. *)
Lemma run_single_position (A B pre : list SignalRow) (rm r : SignalRow) :
  Forall (fun x => signal_state x = FLAT) A ->
  signal_state rm <> FLAT ->
  Forall (fun x => signal_state x = signal_state rm) B ->
  A ++ rm :: B = pre ++ [r] ->
  run_trades (A ++ rm :: B)
  = (c <- Trade_close (new_Trade (idx rm) (close rm) (signal_state rm))
            (idx r) (close r) ;;
     Ok [c]).
Proof.
  intros HA Hrm HB E.
  assert (Hloop : run_loop (A ++ rm :: B)
                  = Ok (mkRun [] (Some (new_Trade (idx rm) (close rm)
                                          (signal_state rm)))
                              (signal_state rm))).
  { unfold run_loop. rewrite run_from_app, (run_fold_same A run_init HA).
    cbn [bind run_from].
    assert (Hstep : run_step run_init rm
                    = Ok (mkRun [] (Some (new_Trade (idx rm) (close rm)
                                            (signal_state rm)))
                                (signal_state rm))).
    { unfold run_step, run_init. cbn [current_state current_position r_trades].
      apply SignalState_eqb_neq in Hrm. now rewrite Hrm. }
    rewrite Hstep. cbn [bind]. now apply run_fold_same. }
  unfold run_trades. rewrite Hloop. cbn [bind current_position r_trades].
  rewrite E, last_row_snoc. cbn [bind].
  now destruct (Trade_close _ _ _).
Qed.

(** X10.  A rising market: with positive, strictly increasing closes, both
    periods positive and a zero threshold, a table longer than both periods
    gives exactly one trade: LONG, entered on the first bar that has enough
    history for both periods, and closed by force on the last bar, with a
    P&L of the last close minus the entry close, which is never negative and
    is positive when the entry bar is not the last one. *)
Theorem rising_market_one_long (self : BacktestEngine) (data pre : list Bar)
  (bm blast : Bar) :
  0 < period_short (strategy self) ->
  0 < period_long (strategy self) ->
  (threshold (strategy self) == 0)%Q ->
  Forall (fun b => (0 < bar_close b)%Q) data ->
  StronglySorted Qlt (map bar_close data) ->
  nth_error data
    (Z.to_nat (Z.max (period_short (strategy self))
                     (period_long (strategy self)))) = Some bm ->
  data = pre ++ [blast] ->
  exists r t,
    run self data = Ok r /\ trades r = [t] /\
    entry_state t = LONG /\
    entry_time t = bar_time bm /\ entry_price t = bar_close bm /\
    exit_time t = Some (bar_time blast) /\
    exit_price t = Some (bar_close blast) /\
    pnl t = Some (bar_close blast - bar_close bm)%Q /\
    (0 <= bar_close blast - bar_close bm)%Q /\
    ((Z.to_nat (Z.max (period_short (strategy self))
                      (period_long (strategy self))) < length pre)%nat ->
     (0 < bar_close blast - bar_close bm)%Q).
Proof.
  intros Hps Hpl Hthr Hpos Hsorted Hbm Hdata.
  set (m := Z.to_nat (Z.max (period_short (strategy self))
                            (period_long (strategy self)))) in *.
  set (signals := generate_signals (strategy self) data).
  set (closes := map bar_close data) in *.
  assert (Hcpos : Forall (fun x => (0 < x)%Q) closes)
    by (unfold closes; now rewrite Forall_map).
  assert (Hstate : forall i row, nth_error signals i = Some row ->
            signal_state row = if (i <? m)%nat then FLAT else LONG).
  { intros i row Hi.
    destruct (signal_row_of_nth _ _ _ _ Hi) as (b & Hb & ->).
    assert (Hlen : (i < length closes)%nat).
    { unfold closes. rewrite length_map. apply nth_error_Some. congruence. }
    destruct (Nat.ltb_spec i m) as [Him|Him].
    - apply score_warmup. lia.
    - unfold signal_row. cbv zeta. cbn [signal_state]. fold closes.
      destruct (pct_at_rising closes (period_short (strategy self)) i)
        as (q1 & -> & Hq1); auto; [lia|].
      destruct (pct_at_rising closes (period_long (strategy self)) i)
        as (q2 & -> & Hq2); auto; [lia|].
      cbn [fmul fadd]. apply positive_is_long; [assumption|].
      unfold w_short, w_long. nra. }
  assert (Hrm : nth_error signals m
                = Some (signal_row (strategy self) closes m bm)).
  { unfold signals. rewrite generate_signals_nth, Hbm. reflexivity. }
  set (rm := signal_row (strategy self) closes m bm) in *.
  destruct (nth_error_split signals m Hrm) as (A & B & Hsplit & HlenA).
  assert (HA : Forall (fun x => signal_state x = FLAT) A).
  { apply Forall_forall. intros x Hx. apply In_nth_error in Hx.
    destruct Hx as (j & Hj).
    assert (Hjm : (j < m)%nat)
      by (rewrite <- HlenA; apply nth_error_Some; congruence).
    assert (Hjs : nth_error signals j = Some x)
      by (rewrite Hsplit, nth_error_app1; [assumption|lia]).
    rewrite (Hstate j x Hjs).
    destruct (Nat.ltb_spec j m); [reflexivity|lia]. }
  assert (Hrml : signal_state rm = LONG).
  { rewrite (Hstate m rm Hrm).
    destruct (Nat.ltb_spec m m); [lia|reflexivity]. }
  assert (HB : Forall (fun x => signal_state x = signal_state rm) B).
  { apply Forall_forall. intros x Hx. apply In_nth_error in Hx.
    destruct Hx as (j & Hj).
    assert (Hjs : nth_error signals (m + S j) = Some x).
    { rewrite Hsplit, nth_error_app2 by lia.
      replace (m + S j - length A)%nat with (S j) by lia. exact Hj. }
    rewrite (Hstate _ x Hjs), Hrml.
    destruct (Nat.ltb_spec (m + S j) m); [lia|reflexivity]. }
  assert (Hlast : exists pre', signals
                    = pre' ++ [signal_row (strategy self) closes
                                 (length pre) blast]).
  { assert (Hl : nth_error signals (length pre)
                 = Some (signal_row (strategy self) closes (length pre)
                           blast)).
    { unfold signals. rewrite generate_signals_nth, Hdata.
      rewrite nth_error_app2, Nat.sub_diag by lia. simpl.
      unfold closes. now rewrite Hdata. }
    destruct (nth_error_split signals _ Hl) as (l1 & l2 & E & Hl1).
    assert (Hn : length signals = S (length pre)).
    { unfold signals. rewrite generate_signals_length, Hdata, length_app.
      simpl. lia. }
    rewrite E, length_app in Hn. simpl in Hn.
    destruct l2; [|simpl in Hn; lia]. now exists l1. }
  destruct Hlast as (pre' & Hlast).
  set (rl := signal_row (strategy self) closes (length pre) blast) in *.
  destruct (Trade_close_returns
              (new_Trade (idx rm) (close rm) (signal_state rm))
              (idx rl) (close rl)) as (tr & Htr).
  { change (~ (bar_close bm == 0)%Q).
    assert (0 < bar_close bm)%Q
      by (rewrite Forall_forall in Hpos; apply Hpos;
          eapply nth_error_In; eauto).
    lra. }
  assert (HT' : run_trades signals = Ok [tr]).
  { rewrite Hsplit, (run_single_position A B pre' rm rl); auto.
    - now rewrite Htr.
    - rewrite Hrml. discriminate.
    - now rewrite <- Hsplit. }
  pose proof (run_of_trades self data [tr] HT') as Hrun.
  apply Trade_close_value in Htr. destruct Htr as (_ & Htr).
  rewrite Hrml in Htr.
  assert (Hle : (bar_close bm <= bar_close blast)%Q /\
                ((m < length pre)%nat -> (bar_close bm < bar_close blast)%Q)).
  { assert (Hn1 : nth_error closes m = Some (bar_close bm))
      by (unfold closes; now rewrite nth_error_map, Hbm).
    assert (Hn2 : nth_error closes (length pre) = Some (bar_close blast)).
    { unfold closes. rewrite nth_error_map, Hdata.
      now rewrite nth_error_app2, Nat.sub_diag by lia. }
    assert (Hm : (m <= length pre)%nat).
    { assert (m < length data)%nat by (apply nth_error_Some; congruence).
      rewrite Hdata, length_app in H. simpl in H. lia. }
    assert (Hlt : (m < length pre)%nat ->
                  (bar_close bm < bar_close blast)%Q).
    { intros H. exact (StronglySorted_nth Qlt closes Hsorted m (length pre)
                         _ _ H Hn1 Hn2). }
    split; [|exact Hlt].
    destruct (Nat.eq_dec m (length pre)) as [Heq|Hneq].
    - rewrite <- Heq in Hn2. rewrite Hn1 in Hn2. injection Hn2 as ->.
      apply Qle_refl.
    - apply Qlt_le_weak, Hlt. lia. }
  eexists; exists tr. split; [exact Hrun|].
  split; [reflexivity|].
  do 6 (split; [rewrite Htr; reflexivity|]).
  destruct Hle as [H1 H2]. split; [lra|].
  intros H. specialize (H2 H). lra.
Qed.

Lemma rising_market_one_long_witness :
  0 < period_short (strategy engine_1_1) /\
  0 < period_long (strategy engine_1_1) /\
  (threshold (strategy engine_1_1) == 0)%Q /\
  Forall (fun b => (0 < bar_close b)%Q)
         (daily [100 # 1; 110 # 1; 120 # 1]%Q) /\
  StronglySorted Qlt (map bar_close (daily [100 # 1; 110 # 1; 120 # 1]%Q)) /\
  exists r t,
    run engine_1_1 (daily [100 # 1; 110 # 1; 120 # 1]%Q) = Ok r /\
    trades r = [t] /\ entry_state t = LONG /\
    pnl t = Some ((120 # 1) - (110 # 1))%Q /\
    (0 < (120 # 1) - (110 # 1))%Q.
Proof.
  assert (H1 : 0 < period_short (strategy engine_1_1)) by reflexivity.
  assert (H2 : 0 < period_long (strategy engine_1_1)) by reflexivity.
  assert (H3 : (threshold (strategy engine_1_1) == 0)%Q) by reflexivity.
  assert (H4 : Forall (fun b => (0 < bar_close b)%Q)
                      (daily [100 # 1; 110 # 1; 120 # 1]%Q))
    by (repeat constructor).
  assert (H5 : StronglySorted Qlt
                 (map bar_close (daily [100 # 1; 110 # 1; 120 # 1]%Q)))
    by (simpl; repeat (constructor; try reflexivity)).
  split; [exact H1|]. split; [exact H2|]. split; [exact H3|].
  split; [exact H4|]. split; [exact H5|].
  destruct (rising_market_one_long engine_1_1
              (daily [100 # 1; 110 # 1; 120 # 1]%Q)
              (daily [100 # 1; 110 # 1]%Q)
              (mkBar ns_per_day (110 # 1))
              (mkBar (2 * ns_per_day) (120 # 1))
              H1 H2 H3 H4 H5 eq_refl eq_refl)
    as (r & t & Hrun & Ht & Hs & _ & _ & _ & _ & Hp & _ & Hpos).
  exists r, t. split; [exact Hrun|]. split; [exact Ht|].
  split; [exact Hs|]. split; [exact Hp|].
  apply Hpos. simpl. apply Nat.lt_succ_diag_r.
Defined.

(** ** Statistics of a backtest result *)

Lemma mapM_length {A B : Type} (f : A -> res B) :
  forall l l', mapM f l = Ok l' -> length l' = length l.
Proof.
  induction l as [|a l IH]; intros l' H; simpl in H.
  - now injection H as <-.
  - destruct (f a) as [b|e]; [|discriminate]. simpl in H.
    destruct (mapM f l) as [bs|e]; [|discriminate]. simpl in H.
    injection H as <-. simpl. f_equal. now apply IH.
Qed.

Lemma mapM_pnl_pct_of (rows : list SignalRow) (T : list Trade) :
  Forall (fun t => opened_at rows t /\ closed_at rows t) T ->
  exists l,
    mapM pnl_pct_of T = Ok l /\
    Forall2 (fun t v => pnl_pct t = Some v) T l.
Proof.
  induction 1 as [|t T (_ & (row & _ & E)) _ (l & IH & IH2)]; simpl.
  - exists []. split; [reflexivity|constructor].
  - destruct (Trade_close_pnl _ _ _ _ E) as (v & _ & Hpct & _).
    unfold pnl_pct_of at 1. rewrite Hpct, IH. simpl.
    eexists. split; [reflexivity|]. now constructor.
Qed.

Lemma Forall_filter {A : Type} (P : A -> Prop) (f : A -> bool) (l : list A) :
  Forall P l -> Forall P (filter f l).
Proof.
  induction 1 as [|a l Ha _ IH]; simpl; [constructor|].
  destruct (f a); [now constructor|assumption].
Qed.

(** What [run] returns, with the facts about its trades that the statistics
    need. *)
Lemma run_result (self : BacktestEngine) (data : list Bar)
  (r : BacktestResult) :
  run self data = Ok r ->
  exists T e,
    r = mkResult T e /\
    Forall (fun t => opened_at (generate_signals (strategy self) data) t /\
                     closed_at (generate_signals (strategy self) data) t) T.
Proof.
  intros Hrun. destruct (run_ok self data r Hrun) as (T & HT & Er).
  destruct (run_trades_ok _ T HT) as (_ & _ & Hall & _).
  exists T. eexists. split; [exact Er|assumption].
Qed.

(** X11.  The summary statistics of every result that the backtest returns
    never fail: every trade of the result is closed and has its P&L.
    [total_trades] is the number of trades, [total_pnl] the sum of their
    P&L, and the dictionary has the keys [max_bars_held] and [min_bars_held]
    exactly when the result has at least one trade. *)
Theorem summary_stats_of_run (self : BacktestEngine) (data : list Bar)
  (r : BacktestResult) :
  run self data = Ok r ->
  exists s,
    get_summary_stats r = Ok s /\
    st_total_trades s = Z.of_nat (length (trades r)) /\
    (st_total_pnl s == pnl_sum (trades r))%Q /\
    (st_max_bars_held s = None <-> trades r = []) /\
    (st_min_bars_held s = None <-> trades r = []).
Proof.
  intros Hrun. destruct (run_result self data r Hrun) as (T & e & -> & Hall).
  set (rows := generate_signals (strategy self) data) in *.
  assert (Hclosed : closed_of (mkResult T e) = T)
    by (now apply (closed_of_run rows)).
  pose proof (mapM_pnl_of rows T Hall) as Hp.
  destruct (mapM_pnl_pct_of rows T Hall) as (pcts & Hpct & _).
  unfold get_summary_stats, winning_trades, losing_trades, win_rate,
    total_pnl, avg_pnl_pct, winning_trades, total_trades.
  rewrite Hclosed. destruct T as [|t0 rest].
  - eexists. split; [reflexivity|]. cbn.
    repeat split; auto; reflexivity.
  - cbv beta iota. rewrite Hp, Hpct. cbn [bind].
    assert (Hlt : (0 <? Z.of_nat (length (t0 :: rest))) = true)
      by reflexivity.
    rewrite Hlt. cbn [bind].
    eexists. split; [reflexivity|].
    cbn [st_total_trades st_total_pnl st_max_bars_held st_min_bars_held
         trades].
    split; [reflexivity|]. split.
    + unfold Qsum. rewrite Qsum_pnl0. ring.
    + split; split; discriminate.
Qed.

Lemma summary_stats_of_run_witness :
  exists r s,
    run engine_1_1 reversal_bars = Ok r /\
    get_summary_stats r = Ok s /\
    st_total_trades s = Z.of_nat (length (trades r)) /\
    (st_total_pnl s == pnl_sum (trades r))%Q /\
    (st_max_bars_held s = None <-> trades r = []) /\
    (st_min_bars_held s = None <-> trades r = []).
Proof.
  eexists.
  refine ((fun Hrun =>
             match summary_stats_of_run engine_1_1 reversal_bars _ Hrun with
             | ex_intro _ s H => ex_intro _ s (conj Hrun H)
             end) _).
  vm_compute. reflexivity.
Defined.

Lemma win_loss_disjoint (l : list Q) :
  (length (filter (fun p => Qltb 0 p) l)
   + length (filter (fun p => Qltb p 0) l) <= length l)%nat.
Proof.
  induction l as [|p l IH]; cbn [filter length]; [lia|].
  destruct (Qltb 0 p) eqn:H1, (Qltb p 0) eqn:H2; cbn [length]; try lia.
  exfalso. unfold Qltb in H1, H2.
  destruct (Qcompare 0 p) eqn:C1; try discriminate.
  destruct (Qcompare p 0) eqn:C2; try discriminate.
  apply Qlt_alt in C1, C2. lra.
Qed.



Lemma Qltb_true (a b : Q) : Qltb a b = true -> (a < b)%Q.
Proof.
  unfold Qltb. destruct (Qcompare a b) eqn:C; try discriminate.
  intros _. now apply Qlt_alt.
Qed.

Lemma Qltb_false (a b : Q) : Qltb a b = false -> (b <= a)%Q.
Proof.
  unfold Qltb. destruct (Qcompare a b) eqn:C; intros H; try discriminate.
  - apply Qeq_alt in C. lra.
  - apply Qgt_alt in C. lra.
Qed.

Lemma Qmax_list_upper :
  forall l m,
    (m <= Qmax_list m l)%Q /\ Forall (fun y => (y <= Qmax_list m l)%Q) l.
Proof.
  unfold Qmax_list.
  induction l as [|y l IH]; intros m; cbn [fold_left].
  - split; [apply Qle_refl|constructor].
  - destruct (IH (if Qltb m y then y else m)) as (H1 & H2).
    destruct (Qltb m y) eqn:E.
    + apply Qltb_true in E. split; [lra|]. constructor; assumption.
    + apply Qltb_false in E. split; [assumption|].
      constructor; [lra|assumption].
Qed.

Lemma Qmin_list_lower :
  forall l m,
    (Qmin_list m l <= m)%Q /\ Forall (fun y => (Qmin_list m l <= y)%Q) l.
Proof.
  unfold Qmin_list.
  induction l as [|y l IH]; intros m; cbn [fold_left].
  - split; [apply Qle_refl|constructor].
  - destruct (IH (if Qltb y m then y else m)) as (H1 & H2).
    destruct (Qltb y m) eqn:E.
    + apply Qltb_true in E. split; [lra|]. constructor; assumption.
    + apply Qltb_false in E. split; [assumption|].
      constructor; [lra|assumption].
Qed.

Lemma inject_Z_succ (n : nat) :
  (inject_Z (Z.of_nat (S n)) == inject_Z (Z.of_nat n) + 1)%Q.
Proof.
  rewrite Nat2Z.inj_succ, <- Z.add_1_r, inject_Z_plus. reflexivity.
Qed.

Lemma Qsum_bounds (lo hi : Q) :
  forall l a,
    Forall (fun y => (lo <= y <= hi)%Q) l ->
    (a + lo * inject_Z (Z.of_nat (length l)) <= fold_left Qplus l a
     <= a + hi * inject_Z (Z.of_nat (length l)))%Q.
Proof.
  induction l as [|y l IH]; intros a Hall.
  - simpl. split; ring_simplify; apply Qle_refl.
  - inversion Hall as [|? ? Hy Hl]; subst.
    cbn [fold_left length]. rewrite inject_Z_succ.
    destruct (IH (a + y)%Q Hl) as (H1 & H2).
    set (n := inject_Z (Z.of_nat (length l))) in *.
    split; nra.
Qed.

(** X13.  When the summary statistics of a result with at least one closed
    trade return, the average P&L lies between the largest loss and the
    largest win, and the average times the number of trades is the total
    P&L. *)
Theorem pnl_extrema (r : BacktestResult) (s : SummaryStats) :
  closed_of r <> [] ->
  get_summary_stats r = Ok s ->
  (st_largest_loss s <= st_avg_pnl s <= st_largest_win s)%Q /\
  (st_avg_pnl s * inject_Z (st_total_trades s) == st_total_pnl s)%Q.
Proof.
  unfold get_summary_stats, winning_trades, losing_trades, win_rate,
    total_pnl, avg_pnl_pct, winning_trades, total_trades.
  destruct (closed_of r) as [|t0 rest]; [congruence|]. intros _.
  cbv beta iota.
  destruct (mapM pnl_of (t0 :: rest)) as [pnls|e] eqn:Hp;
    cbn [bind]; [|discriminate].
  pose proof (mapM_length _ _ _ Hp) as Hlen.
  destruct (mapM pnl_pct_of (t0 :: rest)) as [pcts|e];
    cbn [bind]; [|discriminate].
  assert (Hlt : (0 <? Z.of_nat (length (t0 :: rest))) = true) by reflexivity.
  rewrite Hlt. cbn [bind].
  set (k := Z.of_nat (length (t0 :: rest))).
  assert (Hk : k = Z.of_nat (length pnls)) by (unfold k; now rewrite Hlen).
  clearbody k. subst k. intros [= <-].
  cbn [st_largest_loss st_avg_pnl st_largest_win st_total_trades
       st_total_pnl].
  destruct pnls as [|p ps]; [discriminate|].
  unfold Qmean, Qsum.
  set (n := inject_Z (Z.of_nat (length (p :: ps)))).
  assert (Hn : (0 < n)%Q).
  { unfold n. rewrite <- (Zlt_Qlt 0). simpl. lia. }
  destruct (Qmax_list_upper ps p) as (U1 & U2).
  destruct (Qmin_list_lower ps p) as (L1 & L2).
  assert (Hall : Forall (fun y => (Qmin_list p ps <= y
                                   <= Qmax_list p ps)%Q) (p :: ps)).
  { constructor; [split; assumption|].
    rewrite Forall_forall in *. intros y Hy. split; auto. }
  destruct (Qsum_bounds _ _ (p :: ps) 0%Q Hall) as (B1 & B2). fold n in B1, B2.
  split; [split|].
  - apply Qle_shift_div_l; [assumption|]. lra.
  - apply Qle_shift_div_r; [assumption|]. lra.
  - field. lra.
Qed.

Lemma pnl_extrema_witness :
  exists r s,
    run engine_1_1 reversal_bars = Ok r /\
    closed_of r <> [] /\
    get_summary_stats r = Ok s /\
    (st_largest_loss s <= st_avg_pnl s <= st_largest_win s)%Q /\
    (st_avg_pnl s * inject_Z (st_total_trades s) == st_total_pnl s)%Q.
Proof.
  eexists; eexists.
  split; [vm_compute; reflexivity|].
  lazymatch goal with
  | |- closed_of ?R <> [] /\ _ =>
      assert (H1 : closed_of R <> []) by (vm_compute; discriminate);
      refine (conj H1 _);
      refine ((fun H2 => conj H2 (pnl_extrema R _ H1 H2)) _)
  end.
  vm_compute. reflexivity.
Defined.

Lemma long_short_partition (rows : list SignalRow) (T : list Trade) :
  Forall (fun t => opened_at rows t /\ closed_at rows t) T ->
  (length (filter (fun t => SignalState_eqb (entry_state t) LONG) T)
   + length (filter (fun t => SignalState_eqb (entry_state t) SHORT) T)
   = length T)%nat.
Proof.
  induction 1 as [|t T ((row & _ & _ & _ & Es & Hnf) & _) _ IH];
    cbn [filter length]; [reflexivity|].
  rewrite Es. destruct (signal_state row); cbn; try lia. congruence.
Qed.

Lemma side_win_rate_ok (rows : list SignalRow) (T : list Trade) :
  Forall (fun t => opened_at rows t /\ closed_at rows t) T ->
  exists q, side_win_rate T = Ok q /\ (0 <= q <= 1)%Q.
Proof.
  intros Hall. unfold side_win_rate. destruct T as [|t0 rest].
  - exists 0%Q. split; [reflexivity|]. split; [apply Qle_refl|discriminate].
  - rewrite (mapM_pnl_of rows _ Hall). cbn [bind].
    eexists. split; [reflexivity|].
    set (ps := map pnl0 (t0 :: rest)).
    assert (Hlen : length ps = length (t0 :: rest)) by apply length_map.
    pose proof (win_loss_disjoint ps) as Hd.
    assert (Hn : (0 < inject_Z (Z.of_nat (length (t0 :: rest))))%Q).
    { rewrite <- (Zlt_Qlt 0). simpl. lia. }
    split.
    + apply Qle_shift_div_l; [assumption|]. rewrite Qmult_0_l.
      rewrite <- (Zle_Qle 0). lia.
    + apply Qle_shift_div_r; [assumption|]. rewrite Qmult_1_l.
      rewrite <- Zle_Qle. lia.
Qed.

Lemma side_avg_pnl_pct_ok (rows : list SignalRow) (T : list Trade) :
  Forall (fun t => opened_at rows t /\ closed_at rows t) T ->
  exists a, side_avg_pnl_pct T = Ok a.
Proof.
  intros Hall. unfold side_avg_pnl_pct. destruct T as [|t0 rest].
  - now eexists.
  - destruct (mapM_pnl_pct_of rows _ Hall) as (l & -> & _). now eexists.
Qed.

(** X14.  The trade distribution of every result that the backtest returns
    never fails; its long and short counts add up to the number of trades,
    and both win rates lie between 0 and 1. *)
Theorem trade_distribution_of_run (self : BacktestEngine) (data : list Bar)
  (r : BacktestResult) :
  run self data = Ok r ->
  exists d,
    get_trade_distribution r = Ok d /\
    d_long_trades d + d_short_trades d = Z.of_nat (length (trades r)) /\
    (0 <= d_long_win_rate d <= 1)%Q /\ (0 <= d_short_win_rate d <= 1)%Q.
Proof.
  intros Hrun. destruct (run_result self data r Hrun) as (T & e & -> & Hall).
  set (rows := generate_signals (strategy self) data) in *.
  unfold get_trade_distribution.
  rewrite (closed_of_run rows T e Hall).
  set (L := filter (fun t => SignalState_eqb (entry_state t) LONG) T).
  set (S := filter (fun t => SignalState_eqb (entry_state t) SHORT) T).
  assert (HL : Forall (fun t => opened_at rows t /\ closed_at rows t) L)
    by (now apply Forall_filter).
  assert (HS : Forall (fun t => opened_at rows t /\ closed_at rows t) S)
    by (now apply Forall_filter).
  destruct (side_win_rate_ok rows L HL) as (lw & -> & Hlw).
  destruct (side_win_rate_ok rows S HS) as (sw & -> & Hsw).
  destruct (side_avg_pnl_pct_ok rows L HL) as (la & ->).
  destruct (side_avg_pnl_pct_ok rows S HS) as (sa & ->).
  cbn [bind]. eexists. split; [reflexivity|].
  cbn [d_long_trades d_short_trades d_long_win_rate d_short_win_rate trades].
  split; [|split; assumption].
  rewrite <- Nat2Z.inj_add. f_equal.
  apply (long_short_partition rows T Hall).
Qed.

Lemma trade_distribution_of_run_witness :
  exists r d,
    run engine_1_1 reversal_bars = Ok r /\
    get_trade_distribution r = Ok d /\
    d_long_trades d + d_short_trades d = Z.of_nat (length (trades r)) /\
    (0 <= d_long_win_rate d <= 1)%Q /\ (0 <= d_short_win_rate d <= 1)%Q.
Proof.
  eexists.
  refine ((fun Hrun =>
             match trade_distribution_of_run engine_1_1 reversal_bars _ Hrun
             with
             | ex_intro _ d H => ex_intro _ d (conj Hrun H)
             end) _).
  vm_compute. reflexivity.
Defined.

(** X15.  The P&L distribution of every result that the backtest returns
    never fails and has one value per trade, in the order of the trades: the
    trade's [pnl_pct] times 100. *)
Theorem pnl_distribution_of_run (self : BacktestEngine) (data : list Bar)
  (r : BacktestResult) :
  run self data = Ok r ->
  exists l,
    get_pnl_distribution r = Ok l /\
    Forall2 (fun t v => exists p, pnl_pct t = Some p /\
                                  v = fmul p (Fin (100 # 1)))
            (trades r) l.
Proof.
  intros Hrun. destruct (run_result self data r Hrun) as (T & e & -> & Hall).
  set (rows := generate_signals (strategy self) data) in *.
  unfold get_pnl_distribution. rewrite (closed_of_run rows T e Hall).
  destruct (mapM_pnl_pct_of rows T Hall) as (l & -> & Hl).
  cbn [bind trades]. eexists. split; [reflexivity|].
  clear - Hl. induction Hl as [|t v T l Htv _ IH]; simpl; constructor; auto.
  now exists v.
Qed.

Lemma pnl_distribution_of_run_witness :
  exists r l,
    run engine_1_1 reversal_bars = Ok r /\
    get_pnl_distribution r = Ok l /\
    Forall2 (fun t v => exists p, pnl_pct t = Some p /\
                                  v = fmul p (Fin (100 # 1)))
            (trades r) l.
Proof.
  eexists.
  refine ((fun Hrun =>
             match pnl_distribution_of_run engine_1_1 reversal_bars _ Hrun
             with
             | ex_intro _ l H => ex_intro _ l (conj Hrun H)
             end) _).
  vm_compute. reflexivity.
Defined.

(** ** Trades *)




(** X18.  With strictly increasing timestamps, every trade of a result
    that the backtest returns has a [bars_held] that is not negative and is
    the number of whole days between its entry and its exit. *)
Theorem bars_held_whole_days (self : BacktestEngine) (data : list Bar)
  (r : BacktestResult) :
  increasing (map bar_time data) ->
  run self data = Ok r ->
  Forall (fun t => exists x d,
            exit_time t = Some x /\ bars_held t = Some d /\
            0 <= d /\
            d * ns_per_day <= x - entry_time t < (d + 1) * ns_per_day)
         (trades r).
Proof.
  intros Hinc Hrun.
  destruct (run_sorted_result self data r Hinc Hrun)
    as (T & -> & _ & _ & Hspans & Hall).
  cbn [trades].
  rewrite Forall_forall in *. intros t Ht.
  destruct (Hspans t Ht) as (x & Ex & Hle).
  destruct (Hall t Ht) as (_ & (row & _ & E)).
  destruct (Trade_close_exit _ _ _ _ E) as (X1 & _ & B).
  cbn [new_Trade entry_time] in B.
  rewrite Ex in X1. injection X1 as Hx. subst x.
  exists (idx row), ((idx row - entry_time t) / ns_per_day).
  split; [assumption|].
  split; [assumption|].
  assert (Hd : 0 < ns_per_day) by reflexivity.
  split; [apply Z.div_pos; lia|].
  pose proof (Z.mul_div_le (idx row - entry_time t) ns_per_day Hd).
  pose proof (Z.mul_succ_div_gt (idx row - entry_time t) ns_per_day Hd).
  lia.
Qed.

Lemma bars_held_whole_days_witness :
  increasing (map bar_time late_reversal_bars) /\
  exists r,
    run engine_1_1 late_reversal_bars = Ok r /\
    Forall (fun t => exists x d,
              exit_time t = Some x /\ bars_held t = Some d /\
              0 <= d /\
              d * ns_per_day <= x - entry_time t < (d + 1) * ns_per_day)
           (trades r).
Proof.
  assert (H : increasing (map bar_time late_reversal_bars))
    by sample_increasing.
  split; [exact H|].
  eexists.
  refine ((fun Hrun =>
             conj Hrun
               (bars_held_whole_days engine_1_1 late_reversal_bars _ H Hrun))
            _).
  vm_compute. reflexivity.
Defined.

(** ** The equity curve with an open trade *)

(** X19.  [_calculate_equity_curve] accepts a trade that is still open: such
    a trade alone is marked to market on every bar from its entry time on,
    and the capital is the initial capital on the bars before. *)
Theorem equity_of_open_trade (self : BacktestEngine)
  (rows : list SignalRow) (t : Z) (p : Q) (s : SignalState) :
  exists eq,
    _calculate_equity_curve self rows [new_Trade t p s] = Ok eq /\
    s_index eq = map idx rows /\
    s_values eq
    = map (fun row =>
             if t <=? idx row
             then (initial_capital self + 0
                   + unrealized (new_Trade t p s) (close row))%Q
             else (initial_capital self + 0)%Q) rows.
Proof.
  rewrite calculate_equity_curve_spec.
  - eexists. split; [reflexivity|]. split; [reflexivity|]. cbn [s_values].
    generalize 0%Q as cum.
    induction rows as [|row rows IH]; intros cum; [reflexivity|].
    assert (Hact : is_active (idx row) (new_Trade t p s) = (t <=? idx row))
      by (unfold is_active; simpl; apply andb_true_r).
    cbn [equity_values map]. f_equal.
    + unfold capital_at, find_active. cbn [find]. rewrite Hact.
      now destruct (t <=? idx row).
    + assert (Hstep : realized_step [new_Trade t p s] cum row = cum).
      { unfold realized_step, find_active. cbn [find]. rewrite Hact.
        now destruct (t <=? idx row). }
      rewrite Hstep. apply IH.
  - constructor; [|constructor]. intros H. now contradiction H.
Qed.

(** ** Scaling the prices *)

Lemma Qcompare_scale (k d : Q) :
  (0 < k)%Q -> Qcompare (k * d) 0 = Qcompare d 0.
Proof.
  intros Hk.
  destruct (Qcompare d 0) eqn:C.
  - apply Qeq_alt in C. apply Qeq_alt. rewrite C. ring.
  - apply Qlt_alt in C. apply Qlt_alt.
    assert (H : (k * d < k * 0)%Q) by (now apply Qmult_lt_l).
    now rewrite Qmult_0_r in H.
  - apply Qgt_alt in C. apply Qgt_alt.
    assert (H : (k * 0 < k * d)%Q) by (now apply Qmult_lt_l).
    now rewrite Qmult_0_r in H.
Qed.

Lemma feq_refl (a : fnum) : feq a a.
Proof. destruct a; simpl; auto. reflexivity. Qed.

Lemma pct_scale (k x d : Q) :
  (0 < k)%Q ->
  feq (fsub (fdiv (Fin (k * x)) (Fin (k * d))) (Fin 1%Q))
      (fsub (fdiv (Fin x) (Fin d)) (Fin 1%Q)).
Proof.
  intros Hk. unfold fsub, fdiv. rewrite (Qcompare_scale k d Hk).
  destruct (Qcompare d 0) eqn:C.
  - unfold inf_of_sign. rewrite (Qcompare_scale k x Hk). apply feq_refl.
  - apply Qlt_alt in C. simpl. field. lra.
  - apply Qgt_alt in C. simpl. field. lra.
Qed.

Lemma feq_fmul (w : Q) (a b : fnum) :
  feq a b -> feq (fmul (Fin w) a) (fmul (Fin w) b).
Proof.
  destruct a, b; simpl; intros H; try contradiction; try apply feq_refl;
    try exact I.
  now rewrite H.
Qed.

Lemma feq_fadd (a b c d : fnum) :
  feq a b -> feq c d -> feq (fadd a c) (fadd b d).
Proof.
  destruct a, b; simpl; intros H; try contradiction;
    destruct c, d; simpl; intros H'; try contradiction; auto.
  now rewrite H, H'.
Qed.

Lemma feq_signal_value (thr : Q) (a b : fnum) :
  feq a b -> signal_value_of thr a = signal_value_of thr b.
Proof.
  destruct a as [x| | |], b as [y| | |]; intros H; simpl in H;
    try contradiction; try reflexivity.
  unfold signal_value_of, fgt, flt.
  rewrite (Qcompare_comp x y H (- thr)%Q (- thr)%Q (Qeq_refl _)).
  rewrite (Qcompare_comp thr thr (Qeq_refl _) x y H).
  reflexivity.
Qed.

Lemma pct_at_scale (k : Q) (closes : list Q) (period : Z) (i : nat) :
  (0 < k)%Q ->
  feq (pct_at (map (Qmult k) closes) period i) (pct_at closes period i).
Proof.
  intros Hk. unfold pct_at, shift. rewrite nth_error_map.
  destruct (nth_error closes i) as [x|]; simpl; [|exact I].
  destruct (0 <=? Z.of_nat i - period); [|exact I].
  rewrite nth_error_map.
  destruct (nth_error closes (Z.to_nat (Z.of_nat i - period))) as [d|];
    simpl; [|exact I].
  now apply pct_scale.
Qed.

(** X20.  Only relative prices matter: multiplying every close by the same
    positive factor leaves the state of every bar unchanged, and the two
    momenta and the score equal in value. *)
Theorem signals_scale_invariant (self : TSMOM) (data : list Bar) (k : Q)
  (i : nat) (row row' : SignalRow) :
  (0 < k)%Q ->
  nth_error (generate_signals self (scale_bars k data)) i = Some row' ->
  nth_error (generate_signals self data) i = Some row ->
  signal_state row' = signal_state row /\
  signal_value row' = signal_value row /\
  feq (momentum_short row') (momentum_short row) /\
  feq (momentum_long row') (momentum_long row) /\
  feq (signal_score row') (signal_score row).
Proof.
  intros Hk Hi' Hi.
  destruct (signal_row_of_nth _ _ _ _ Hi) as (b & _ & ->).
  destruct (signal_row_of_nth _ _ _ _ Hi') as (b' & _ & ->).
  assert (Hc : map bar_close (scale_bars k data)
               = map (Qmult k) (map bar_close data)).
  { unfold scale_bars. rewrite !map_map. reflexivity. }
  rewrite Hc. unfold signal_row. cbv zeta.
  cbn [signal_state signal_value momentum_short momentum_long signal_score].
  set (closes := map bar_close data).
  pose proof (pct_at_scale k closes (period_short self) i Hk) as Hs.
  pose proof (pct_at_scale k closes (period_long self) i Hk) as Hl.
  assert (Hsc : feq (fadd (fmul (Fin w_short)
                             (pct_at (map (Qmult k) closes)
                                (period_short self) i))
                          (fmul (Fin w_long)
                             (pct_at (map (Qmult k) closes)
                                (period_long self) i)))
                    (fadd (fmul (Fin w_short)
                             (pct_at closes (period_short self) i))
                          (fmul (Fin w_long)
                             (pct_at closes (period_long self) i))))
    by (apply feq_fadd; now apply feq_fmul).
  rewrite (feq_signal_value (threshold self) _ _ Hsc). auto.
Qed.

Lemma signals_scale_invariant_witness :
  (0 < 2 # 1)%Q /\
  exists row row',
    nth_error (generate_signals tsmom_1_1 (scale_bars (2 # 1) reversal_bars))
      1 = Some row' /\
    nth_error (generate_signals tsmom_1_1 reversal_bars) 1 = Some row /\
    signal_state row' = signal_state row /\
    feq (signal_score row') (signal_score row).
Proof.
  assert (Hk : (0 < 2 # 1)%Q) by reflexivity.
  split; [exact Hk|].
  eexists; eexists. split; [reflexivity|]. split; [reflexivity|].
  destruct (signals_scale_invariant tsmom_1_1 reversal_bars (2 # 1) 1 _ _
              Hk eq_refl eq_refl) as (H1 & _ & _ & _ & H5).
  split; [exact H1|exact H5].
Defined.

(** ** How long a position is held *)






(** ** When the backtest raises *)


